(** * Ingestion-and-fan-out hub of the crypto live dashboard

    A shallow embedding of [web_monitor.py]: the formatter helpers, the
    bounded history buffers, the three Binance stream consumers, the
    broadcast to the connected WebSocket clients and the WebSocket
    endpoint, followed by the properties the specification states about
    them.

    Python floats are IEEE-754 binary64 numbers and are modelled by Rocq's
    primitive floats, so products and comparisons round and compare as
    they do in CPython.  The coroutine [broadcast_to_clients] is modelled
    twice: step by step, suspended in every [await client.send_text] with
    the client list shared among the tasks ([publish_start],
    [publish_resume]), and as the one state transformer that these steps
    make when no other task runs before the call returns
    ([broadcast_to_clients]).  The message handlers and the hub events are
    built from the latter: in [hub_step] a handler runs to completion before
    the next task is scheduled. *)

From Stdlib Require Import Floats ZArith Lia Ascii String.
From stdpp Require Import base option list strings gmap.

(** ** Numbers *)

(** [math.isnan(x)]: a NaN is the one float that differs from itself. *)
Definition is_nan (x : float) : bool := negb (x =? x)%float.

(** ** Exceptions and results *)

(** The exception classes the hub can meet.  [CancelledError] derives from
    [BaseException] only, so [except Exception] does not catch it;
    [JSONDecodeError] is the one class the funding consumer singles out. *)
Inductive exn :=
| JSONDecodeError
| KeyError
| TypeError
| ValueError
| AttributeError
| OverflowError
| ConnectionClosed
| OSError
| WebSocketDisconnect
| CancelledError.

Definition is_Exception (e : exn) : bool :=
  match e with CancelledError => false | _ => true end.

Definition is_JSONDecodeError (e : exn) : bool :=
  match e with JSONDecodeError => true | _ => false end.

Inductive result (A : Type) :=
| Ok (a : A)
| Raise (e : exn).
Arguments Ok {A} a.
Arguments Raise {A} e.

Definition of_option {A} (e : exn) (o : option A) : result A :=
  match o with Some a => Ok a | None => Raise e end.

Definition rbind {A B} (r : result A) (k : A → result B) : result B :=
  match r with Ok a => k a | Raise e => Raise e end.

Notation "'let?' x ':=' r 'in' k" := (rbind r (λ x, k))
  (at level 10, x name, r at level 100, k at level 200, only parsing).

(** ** Python values decoded from JSON, and the builtins applied to them *)

#[local] Unset Elimination Schemes.
Inductive json :=
| JNull
| JBool (b : bool)
| JInt (n : Z)
| JFloat (x : float)
| JStr (s : string)
| JArr (items : list json)
| JObj (items : list (string * json)).
#[local] Set Elimination Schemes.

Fixpoint dict_get (key : string) (items : list (string * json)) : option json :=
  match items with
  | [] => None
  | (k, v) :: rest => if String.eqb k key then Some v else dict_get key rest
  end.

(** [obj[key]] with a string key: only a dict is subscriptable by it. *)
Definition getitem (obj : json) (key : string) : result json :=
  match obj with
  | JObj items => of_option KeyError (dict_get key items)
  | _ => Raise TypeError
  end.

(** Truth value of an object, as [if obj] tests it. *)
Definition truthy (obj : json) : bool :=
  match obj with
  | JNull => false
  | JBool b => b
  | JInt n => negb (n =? 0)%Z
  | JFloat x => negb (x =? 0)%float
  | JStr s => negb (String.eqb s "")
  | JArr items => negb (bool_decide (length items = 0))
  | JObj items => negb (bool_decide (length items = 0))
  end.

(** Equality of an object with a str literal, as [obj == 'SELL']. *)
Definition eq_str (obj : json) (s : string) : bool :=
  match obj with
  | JStr s' => String.eqb s' s
  | _ => false
  end.

(** A text frame of a stream, represented by what [json.loads] makes of
    it: a decoded value, or [json.JSONDecodeError]. *)
Inductive frame :=
| not_json
| json_text (value : json).

Definition json_loads (message : frame) : result json :=
  match message with
  | not_json => Raise JSONDecodeError
  | json_text value => Ok value
  end.

(** What the interpreter and its libraries provide: number parsing, the
    clock rendering and number formatting. *)
Class PyRuntime := {
  (** [float(s)] on a str; [None] stands for [ValueError] *)
  float_of_str : string → option float;
  (** [float(n)] on an int; [None] stands for [OverflowError] *)
  float_of_int : Z → option float;
  (** [int(s)] on a str; [None] stands for [ValueError] *)
  int_of_str : string → option Z;
  (** [int(x)] on a float; [None] stands for the [ValueError] on nan and
      the [OverflowError] on an infinity *)
  int_of_float : float → option Z;
  (** [datetime.fromtimestamp(ms / 1000, est).strftime('%H:%M:%S')];
      [None] stands for the error of a timestamp out of the calendar's
      range *)
  strftime_est : Z → option string;
  (** [format(x, '.<digits>f')] *)
  format_f : nat → float → string;
}.

Section Builtins.
Context `{PyRuntime}.

Definition py_float (obj : json) : result float :=
  match obj with
  | JFloat x => Ok x
  | JInt n => of_option OverflowError (float_of_int n)
  | JBool b => Ok (if b then 1 else 0)%float
  | JStr s => of_option ValueError (float_of_str s)
  | JNull | JArr _ | JObj _ => Raise TypeError
  end.

Definition py_int (obj : json) : result Z :=
  match obj with
  | JInt n => Ok n
  | JBool b => Ok (if b then 1 else 0)%Z
  | JFloat x =>
      of_option (if is_nan x then ValueError else OverflowError)
        (int_of_float x)
  | JStr s => of_option ValueError (int_of_str s)
  | JNull | JArr _ | JObj _ => Raise TypeError
  end.

End Builtins.

(** ** Strings *)

(** [str.upper] on ASCII text. *)
Definition upper_ascii (c : ascii) : ascii :=
  let n := nat_of_ascii c in
  if (97 <=? n)%nat && (n <=? 122)%nat then ascii_of_nat (n - 32) else c.

Fixpoint upper (s : string) : string :=
  match s with
  | EmptyString => EmptyString
  | String c rest => String (upper_ascii c) (upper rest)
  end.

(** [s.replace(old, new)] for a non-empty [old]: occurrences are replaced
    left to right without overlap.  [skip] counts the characters of a
    matched occurrence that are still to be dropped. *)
Fixpoint replace_from (old new : string) (skip : nat) (s : string) : string :=
  match s with
  | EmptyString => EmptyString
  | String c rest =>
      match skip with
      | S k => replace_from old new k rest
      | O =>
          if String.prefix old s
          then new +:+ replace_from old new (String.length old - 1) rest
          else String c (replace_from old new 0 rest)
      end
  end.

Definition replace (old new s : string) : string := replace_from old new 0 s.

(** [obj.replace(old, new)]: only a str has the method. *)
Definition str_replace (obj : json) (old new : string) : result string :=
  match obj with
  | JStr s => Ok (replace old new s)
  | _ => Raise AttributeError
  end.

(** The slice [s[:n]]. *)
Fixpoint slice_to (n : nat) (s : string) : string :=
  match n, s with
  | S k, String c rest => String c (slice_to k rest)
  | _, _ => EmptyString
  end.

(** ** Data model *)

(** A connected WebSocket, compared by identity. *)
Definition client := nat.

Definition symbols : list string :=
  ["btcusdt"; "ethusdt"; "solusdt"; "bnbusdt"; "dogeusdt"; "wifusdt"].

(** The dict stored under a symbol of [funding_data]. *)
Record funding_snapshot := {
  symbol_display : string;
  funding_rate : float;
  yearly_rate : float;
  style_class : string;
}.

(** The dict appended to [recent_liquidations]. *)
Record liquidation := {
  liq_symbol : string;
  liq_side : json;
  liq_side_text : string;
  liq_usd_size : string;
  liq_time : string;
  liq_color_class : string;
}.

(** The dict appended to [recent_trades]. *)
Record trade := {
  trade_symbol : string;
  trade_type : string;
  trade_usd_size : string;
  trade_price : float;
  trade_time : string;
  trade_color_class : string;
}.

(** [trade.copy()] extended with the three whale keys. *)
Record whale_alert := {
  whale_trade : trade;
  usd_value : float;
  whale_class : string;
  size_indicator : string;
}.

Abbreviation funding_table := (gmap string (option funding_snapshot)).

(** The dicts handed to [json.dumps], by their ['type']. *)
Inductive event :=
| initial_data (funding : funding_table) (liquidations : list liquidation)
    (trades : list trade) (whales : list whale_alert)
| funding_update (data : funding_table)
| liquidation_update (data : list liquidation)
| trade_update (data : list trade)
| whale_alert_update (data : list whale_alert).

(** The module-level state, together with what the hub can observe of its
    environment: which client transports raise on [send_text], the texts
    handed to the transports so far, and the history of the calls of
    [broadcast_to_clients] (oldest first). *)
Record world := {
  funding_data : funding_table;
  recent_liquidations : list liquidation;
  recent_trades : list trade;
  whale_alerts : list whale_alert;
  connected_clients : list client;
  broken : gset client;
  sent : list (client * event);
  broadcasts : list event;
}.

Definition set_funding_data (v : funding_table) (w : world) : world :=
  {| funding_data := v; recent_liquidations := recent_liquidations w;
     recent_trades := recent_trades w; whale_alerts := whale_alerts w;
     connected_clients := connected_clients w; broken := broken w;
     sent := sent w; broadcasts := broadcasts w |}.

Definition set_recent_liquidations (v : list liquidation) (w : world) : world :=
  {| funding_data := funding_data w; recent_liquidations := v;
     recent_trades := recent_trades w; whale_alerts := whale_alerts w;
     connected_clients := connected_clients w; broken := broken w;
     sent := sent w; broadcasts := broadcasts w |}.

Definition set_recent_trades (v : list trade) (w : world) : world :=
  {| funding_data := funding_data w;
     recent_liquidations := recent_liquidations w;
     recent_trades := v; whale_alerts := whale_alerts w;
     connected_clients := connected_clients w; broken := broken w;
     sent := sent w; broadcasts := broadcasts w |}.

Definition set_whale_alerts (v : list whale_alert) (w : world) : world :=
  {| funding_data := funding_data w;
     recent_liquidations := recent_liquidations w;
     recent_trades := recent_trades w; whale_alerts := v;
     connected_clients := connected_clients w; broken := broken w;
     sent := sent w; broadcasts := broadcasts w |}.

Definition set_connected_clients (v : list client) (w : world) : world :=
  {| funding_data := funding_data w;
     recent_liquidations := recent_liquidations w;
     recent_trades := recent_trades w; whale_alerts := whale_alerts w;
     connected_clients := v; broken := broken w;
     sent := sent w; broadcasts := broadcasts w |}.

Definition set_broken (v : gset client) (w : world) : world :=
  {| funding_data := funding_data w;
     recent_liquidations := recent_liquidations w;
     recent_trades := recent_trades w; whale_alerts := whale_alerts w;
     connected_clients := connected_clients w; broken := v;
     sent := sent w; broadcasts := broadcasts w |}.

Definition set_sent (v : list (client * event)) (w : world) : world :=
  {| funding_data := funding_data w;
     recent_liquidations := recent_liquidations w;
     recent_trades := recent_trades w; whale_alerts := whale_alerts w;
     connected_clients := connected_clients w; broken := broken w;
     sent := v; broadcasts := broadcasts w |}.

Definition set_broadcasts (v : list event) (w : world) : world :=
  {| funding_data := funding_data w;
     recent_liquidations := recent_liquidations w;
     recent_trades := recent_trades w; whale_alerts := whale_alerts w;
     connected_clients := connected_clients w; broken := broken w;
     sent := sent w; broadcasts := v |}.

(** The state at import time: every symbol maps to [None], the deques and
    the client list are empty. *)
Definition initial_world : world :=
  {| funding_data := list_to_map ((λ symbol, (symbol, None)) <$> symbols);
     recent_liquidations := []; recent_trades := []; whale_alerts := [];
     connected_clients := []; broken := ∅; sent := []; broadcasts := [] |}.

(** ** A state-and-exception monad for the coroutine bodies *)

Definition M (A : Type) : Type := world → world * result A.

Definition ret {A} (a : A) : M A := λ w, (w, Ok a).
Definition raise {A} (e : exn) : M A := λ w, (w, Raise e).
Definition lift {A} (r : result A) : M A := λ w, (w, r).
Definition get : M world := λ w, (w, Ok w).
Definition modify (f : world → world) : M unit := λ w, (f w, Ok tt).

Definition bind {A B} (m : M A) (k : A → M B) : M B :=
  λ w, match m w with
       | (w', Ok a) => k a w'
       | (w', Raise e) => (w', Raise e)
       end.

Notation "'let*' x ':=' m 'in' k" := (bind m (λ x, k))
  (at level 10, x name, m at level 100, k at level 200, only parsing).
Notation "m ';;' k" := (bind m (λ _, k))
  (at level 100, k at level 200, right associativity, only parsing).

(** ** Bounded deques *)

(** [deque(maxlen=n).appendleft(x)] on a deque listed leftmost first: the
    item is added on the left and, when the deque then exceeds [maxlen],
    one item is popped from the right. *)
Definition appendleft {A} (maxlen : nat) (x : A) (d : list A) : list A :=
  let d' := x :: d in
  if (maxlen <? length d')%nat then removelast d' else d'.

(** ** Formatter *)

Section Formatter.
Context `{PyRuntime}.

Definition format_usd (amount : float) : string :=
  if (1000000 <=? amount)%float
  then "$" +:+ format_f 2 (amount / 1000000)%float +:+ "M"
  else if (1000 <=? amount)%float
  then "$" +:+ format_f 1 (amount / 1000)%float +:+ "K"
  else "$" +:+ format_f 0 amount.

End Formatter.

Definition get_funding_style_class (yearly_rate : float) : string :=
  if (50 <? yearly_rate)%float then "funding-extreme"
  else if (30 <? yearly_rate)%float then "funding-high"
  else if (5 <? yearly_rate)%float then "funding-positive"
  else if (yearly_rate <? -10)%float then "funding-negative"
  else "funding-normal".

(** ** Broadcast hub *)

(** [client.send_text(json.dumps(data))]: raises on a broken transport,
    hands the text to the transport otherwise. *)
Definition send_text (websocket : client) (data : event) : M unit :=
  λ w, if bool_decide (websocket ∈ broken w)
       then (w, Raise WebSocketDisconnect)
       else (set_sent (sent w ++ [(websocket, data)]) w, Ok tt).

(** [l.remove(x)]: drops the first occurrence, [None] stands for the
    [ValueError] of an absent [x]. *)
Fixpoint list_remove (x : client) (l : list client) : option (list client) :=
  match l with
  | [] => None
  | y :: rest =>
      if decide (y = x) then Some rest else (y ::.) <$> list_remove x rest
  end.

(** The statement [connected_clients.remove(client)]. *)
Definition remove_client (websocket : client) : M unit :=
  λ w, match list_remove websocket (connected_clients w) with
       | Some l => (set_connected_clients l w, Ok tt)
       | None => (w, Raise ValueError)
       end.

(** The first loop of [broadcast_to_clients], with the accumulated
    [disconnected] list. *)
Fixpoint send_to_each (data : event) (clients disconnected : list client)
  : M (list client) :=
  match clients with
  | [] => ret disconnected
  | websocket :: rest =>
      λ w, match send_text websocket data w with
           | (w', Ok _) => send_to_each data rest disconnected w'
           | (w', Raise e) =>
               if is_Exception e
               then send_to_each data rest (disconnected ++ [websocket]) w'
               else (w', Raise e)
           end
  end.

(** The second loop of [broadcast_to_clients]. *)
Fixpoint remove_each (disconnected : list client) : M unit :=
  match disconnected with
  | [] => ret tt
  | websocket :: rest => remove_client websocket ;; remove_each rest
  end.

(** A call of [broadcast_to_clients] during which no other task is
    scheduled: the client list and the serialised text stay what they were
    at the call, and the two loops run one after the other.  It is what the
    steps of [publish_resume] below amount to when nothing runs in between
    ([publish_alone_is_broadcast]). *)
Definition broadcast_to_clients (data : event) : M unit :=
  modify (λ w, set_broadcasts (broadcasts w ++ [data]) w) ;;
  let* w := get in
  match connected_clients w with
  | [] => ret tt
  | _ :: _ =>
      let* disconnected := send_to_each data (connected_clients w) [] in
      remove_each disconnected
  end.

(** *** The coroutine, one suspension at a time

    [await client.send_text(...)] suspends the coroutine: until the send
    completes the event loop runs the other consumers and endpoints, which
    share [connected_clients].  The [for] loop holds an iterator on the list
    itself, so each iteration reads the list as it is then, at the
    iterator's index; the second loop has no [await] and runs in one go. *)

(** The argument of a call.  The consumers of liquidations and trades pass
    [list(deque)], a copy; the funding consumer passes [funding_data], the
    dict itself, which [json.dumps] reads again at every send. *)
Inductive payload :=
| snapshot_of (data : event)
| funding_view.

(** [json.dumps(data)], evaluated in state [w]. *)
Definition serialize (p : payload) (w : world) : event :=
  match p with
  | snapshot_of data => data
  | funding_view => funding_update (funding_data w)
  end.

(** A call of [broadcast_to_clients]: suspended in the send of [text] to
    [websocket], with the list iterator at index [next] and the local list
    [disconnected]; or finished, returned or raised. *)
Inductive publish_state :=
| sending (p : payload) (text : event) (websocket : client) (next : nat)
    (disconnected : list client)
| finished (r : result unit).

(** The head of the [for] loop with the iterator at [index]: the next
    client of the list as it is now and the call of its [send_text]; past
    the end of the list, the second loop. *)
Definition publish_next (p : payload) (index : nat)
    (disconnected : list client) (w : world) : world * publish_state :=
  match connected_clients w !! index with
  | Some websocket =>
      (w, sending p (serialize p w) websocket (S index) disconnected)
  | None => let '(w', r) := remove_each disconnected w in (w', finished r)
  end.

(** From the call to the first suspension. *)
Definition publish_start (p : payload) (w : world) : world * publish_state :=
  let w := set_broadcasts (broadcasts w ++ [serialize p w]) w in
  match connected_clients w with
  | [] => (w, finished (Ok tt))
  | _ :: _ => publish_next p 0 [] w
  end.

(** From the completion of a send to the next suspension or the end. *)
Definition publish_resume (s : publish_state) (w : world)
  : world * publish_state :=
  match s with
  | sending p text websocket next disconnected =>
      match send_text websocket text w with
      | (w', Ok _) => publish_next p next disconnected w'
      | (w', Raise e) =>
          if is_Exception e
          then publish_next p next (disconnected ++ [websocket]) w'
          else (w', finished (Raise e))
      end
  | finished r => (w, s)
  end.

(** The call resumed once after each of [others], the state changes the
    other tasks make while it is suspended. *)
Fixpoint publish_run (others : list (world → world)) (s : publish_state)
    (w : world) : world * publish_state :=
  match others with
  | [] => (w, s)
  | other :: rest =>
      let '(w', s') := publish_resume s (other w) in publish_run rest s' w'
  end.

(** The call with no other task scheduled before it ends. *)
Definition publish_alone (p : payload) (w : world) : world * publish_state :=
  let '(w', s) := publish_start p w in
  publish_run (replicate (length (connected_clients w)) (λ w, w)) s w'.

(** ** Feed consumers: the body run on each received message *)

Section Consumers.
Context `{PyRuntime}.

(** *** Funding *)

(** The values bound before [funding_data] is written. *)
Record funding_fields := {
  ff_symbol_display : string;
  ff_funding_rate : float;
}.

Definition funding_decode (message : frame) : result funding_fields :=
  let? data := json_loads message in
  let? s := getitem data "s" in
  let? stripped := str_replace s "USDT" "" in
  let symbol_display := upper stripped in
  let? r := getitem data "r" in
  let? rate := py_float r in
  let funding_rate := (rate * 100)%float in
  Ok {| ff_symbol_display := symbol_display;
        ff_funding_rate := funding_rate |}.

Definition make_funding (f : funding_fields) : funding_snapshot :=
  let yearly_funding_rate := (ff_funding_rate f * 3 * 365)%float in
  {| symbol_display := ff_symbol_display f;
     funding_rate := ff_funding_rate f;
     yearly_rate := yearly_funding_rate;
     style_class := get_funding_style_class yearly_funding_rate |}.

Definition funding_apply (symbol : string) (f : funding_fields) : M unit :=
  modify (λ w, set_funding_data
    (<[symbol := Some (make_funding f)]> (funding_data w)) w) ;;
  let* w := get in
  broadcast_to_clients (funding_update (funding_data w)).

Definition funding_on_message (symbol : string) (message : frame) : M unit :=
  let* f := lift (funding_decode message) in
  funding_apply symbol f.

(** *** Liquidations *)

(** The values bound before the threshold test. *)
Record liquidation_fields := {
  lf_symbol : string;
  lf_side : json;
  lf_timestamp : Z;
  lf_filled_quantity : float;
  lf_price : float;
  lf_time_est : string;
}.

Definition liquidation_decode (msg : frame) : result liquidation_fields :=
  let? decoded := json_loads msg in
  let? order_data := getitem decoded "o" in
  let? s := getitem order_data "s" in
  let? symbol := str_replace s "USDT" "" in
  let? side := getitem order_data "S" in
  let? T := getitem order_data "T" in
  let? timestamp := py_int T in
  let? z := getitem order_data "z" in
  let? filled_quantity := py_float z in
  let? p := getitem order_data "p" in
  let? price := py_float p in
  let? time_est := of_option OverflowError (strftime_est timestamp) in
  Ok {| lf_symbol := symbol; lf_side := side; lf_timestamp := timestamp;
        lf_filled_quantity := filled_quantity; lf_price := price;
        lf_time_est := time_est |}.

Definition liquidation_usd_size (f : liquidation_fields) : float :=
  (lf_filled_quantity f * lf_price f)%float.

Definition make_liquidation (f : liquidation_fields) : liquidation :=
  {| liq_symbol := slice_to 4 (lf_symbol f);
     liq_side := lf_side f;
     liq_side_text :=
       if eq_str (lf_side f) "SELL" then "LONG LIQ" else "SHORT LIQ";
     liq_usd_size := format_usd (liquidation_usd_size f);
     liq_time := lf_time_est f;
     liq_color_class :=
       if eq_str (lf_side f) "SELL"
       then "liquidation-long" else "liquidation-short" |}.

Definition liquidation_apply (f : liquidation_fields) : M unit :=
  let usd_size := liquidation_usd_size f in
  if (5000 <=? usd_size)%float then
    let liquidation := make_liquidation f in
    modify (λ w, set_recent_liquidations
      (appendleft 25 liquidation (recent_liquidations w)) w) ;;
    let* w := get in
    broadcast_to_clients (liquidation_update (recent_liquidations w))
  else ret tt.

Definition liquidation_on_message (msg : frame) : M unit :=
  let* f := lift (liquidation_decode msg) in
  liquidation_apply f.

(** *** Trades and whale alerts *)

Record trade_fields := {
  tf_price : float;
  tf_quantity : float;
  tf_trade_time : Z;
  tf_is_buyer_maker : json;
}.

Definition trade_decode (message : frame) : result trade_fields :=
  let? data := json_loads message in
  let? p := getitem data "p" in
  let? price := py_float p in
  let? q := getitem data "q" in
  let? quantity := py_float q in
  let? T := getitem data "T" in
  let? trade_time := py_int T in
  let? is_buyer_maker := getitem data "m" in
  Ok {| tf_price := price; tf_quantity := quantity;
        tf_trade_time := trade_time;
        tf_is_buyer_maker := is_buyer_maker |}.

Definition trade_usd_size_of (f : trade_fields) : float :=
  (tf_price f * tf_quantity f)%float.

Definition trade_type_of (f : trade_fields) : string :=
  if truthy (tf_is_buyer_maker f) then "SELL" else "BUY".

Definition make_trade (symbol : string) (f : trade_fields)
    (readable_trade_time : string) : trade :=
  let trade_type := trade_type_of f in
  let display_symbol := replace "USDT" "" (upper symbol) in
  {| trade_symbol := slice_to 4 display_symbol;
     trade_type := trade_type;
     trade_usd_size := format_usd (trade_usd_size_of f);
     trade_price := tf_price f;
     trade_time := readable_trade_time;
     trade_color_class :=
       if String.eqb trade_type "BUY" then "trade-buy" else "trade-sell" |}.

Definition make_whale_alert (t : trade) (usd_size : float) : whale_alert :=
  if (1000000 <=? usd_size)%float then
    {| whale_trade := t; usd_value := usd_size;
       whale_class := "whale-mega"; size_indicator := "MEGA" |}
  else if (500000 <=? usd_size)%float then
    {| whale_trade := t; usd_value := usd_size;
       whale_class := "whale-huge"; size_indicator := "HUGE" |}
  else
    {| whale_trade := t; usd_value := usd_size;
       whale_class := "whale-big"; size_indicator := "BIG" |}.

Definition trade_apply (symbol : string) (f : trade_fields) : M unit :=
  let usd_size := trade_usd_size_of f in
  if (15000 <=? usd_size)%float then
    let* readable_trade_time :=
      lift (of_option OverflowError (strftime_est (tf_trade_time f))) in
    let trade := make_trade symbol f readable_trade_time in
    modify (λ w, set_recent_trades
      (appendleft 30 trade (recent_trades w)) w) ;;
    (if (100000 <=? usd_size)%float then
       let whale_alert := make_whale_alert trade usd_size in
       modify (λ w, set_whale_alerts
         (appendleft 15 whale_alert (whale_alerts w)) w) ;;
       let* w := get in
       broadcast_to_clients (whale_alert_update (whale_alerts w))
     else ret tt) ;;
    let* w := get in
    broadcast_to_clients (trade_update (recent_trades w))
  else ret tt.

Definition trade_on_message (symbol : string) (message : frame) : M unit :=
  let* f := lift (trade_decode message) in
  trade_apply symbol f.

End Consumers.

(** ** Feed consumers: the reconnect loops *)

(** Where a consumer task is suspended: in [connect], in [recv], or ended by
    an exception that no handler caught. *)
Inductive phase :=
| Connecting
| Receiving
| Stopped (e : exn).

(** How the pending [await] of a consumer resolves: [connect] returns a
    connection (the frame is ignored) or raises, [recv] returns a frame or
    raises. *)
Inductive await_outcome :=
| returned (message : frame)
| raised (e : exn).

(** What a consumer does besides touching the shared state. *)
Inductive io :=
| io_open
| io_close
| io_log
| io_sleep (seconds : nat).

Definition stream_step : Type :=
  phase → await_outcome → world → phase * list io * world.

(** [async with connect(websocket_url)] under the outer handler
    [except Exception: logger.error(...); await asyncio.sleep(5)]. *)
Definition connect_step (o : await_outcome) (w : world)
  : phase * list io * world :=
  match o with
  | returned _ => (Receiving, [io_open], w)
  | raised e =>
      if is_Exception e then (Connecting, [io_log; io_sleep 5], w)
      else (Stopped e, [], w)
  end.

(** The inner [try] around [recv] and the message body. *)
Definition received (on_message : frame → M unit) (o : await_outcome)
  : M unit :=
  match o with
  | returned message => on_message message
  | raised e => raise e
  end.

Section Streams.
Context `{PyRuntime}.

Definition binance_funding_stream (symbol : string) : stream_step :=
  λ p o w,
  match p with
  | Stopped e => (Stopped e, [], w)
  | Connecting => connect_step o w
  | Receiving =>
      match received (funding_on_message symbol) o w with
      | (w', Ok _) => (Receiving, [], w')
      | (w', Raise e) =>
          (* except json.JSONDecodeError: continue *)
          if is_JSONDecodeError e then (Receiving, [], w')
          (* except Exception: logger.error(...); break *)
          else if is_Exception e then (Connecting, [io_log; io_close], w')
          else (Stopped e, [io_close], w')
      end
  end.

Definition binance_liquidation_stream : stream_step :=
  λ p o w,
  match p with
  | Stopped e => (Stopped e, [], w)
  | Connecting => connect_step o w
  | Receiving =>
      match received liquidation_on_message o w with
      | (w', Ok _) => (Receiving, [], w')
      | (w', Raise e) =>
          (* except Exception: logger.error(...); break *)
          if is_Exception e then (Connecting, [io_log; io_close], w')
          else (Stopped e, [io_close], w')
      end
  end.

Definition binance_trade_stream (symbol : string) : stream_step :=
  λ p o w,
  match p with
  | Stopped e => (Stopped e, [], w)
  | Connecting => connect_step o w
  | Receiving =>
      match received (trade_on_message symbol) o w with
      | (w', Ok _) => (Receiving, [], w')
      | (w', Raise e) =>
          (* except Exception: logger.error(...); break *)
          if is_Exception e then (Connecting, [io_log; io_close], w')
          else (Stopped e, [io_close], w')
      end
  end.

(** A consumer driven through a sequence of await outcomes. *)
Fixpoint run_stream (step : stream_step) (outcomes : list await_outcome)
    (p : phase) (w : world) : phase * list io * world :=
  match outcomes with
  | [] => (p, [], w)
  | o :: rest =>
      let '(p', ios, w') := step p o w in
      let '(p'', ios', w'') := run_stream step rest p' w' in
      (p'', ios ++ ios', w'')
  end.

End Streams.

(** ** Subscriber sessions *)

(** [websocket_endpoint] up to its receive loop: the client joins the list
    and is sent the initial snapshot. *)
Definition websocket_endpoint_accept (websocket : client) : M unit :=
  modify (λ w, set_connected_clients (connected_clients w ++ [websocket]) w) ;;
  let* w := get in
  send_text websocket
    (initial_data (funding_data w) (recent_liquidations w)
       (recent_trades w) (whale_alerts w)).

(** One round of the receive loop: a text is dropped and the loop goes on
    ([true]); [WebSocketDisconnect] removes the client and ends the handler
    ([false]); another exception leaves the handler. *)
Definition websocket_endpoint_receive (websocket : client)
    (o : result string) : M bool :=
  match o with
  | Ok _ => ret true
  | Raise WebSocketDisconnect => remove_client websocket ;; ret false
  | Raise e => raise e
  end.

(** ** The hub as a whole *)

(** What can happen to the shared state: a connected consumer receives a
    frame, a viewer connects or disconnects, a viewer's transport breaks. *)
Inductive hub_event :=
| funding_frame (symbol : string) (message : frame)
| liquidation_frame (message : frame)
| trade_frame (symbol : string) (message : frame)
| client_connects (websocket : client)
| client_disconnects (websocket : client)
| transport_breaks (websocket : client).

Section Hub.
Context `{PyRuntime}.

(** One event handled to its end, with no other task scheduled during the
    sends of its broadcasts. *)
Definition hub_step (w : world) (ev : hub_event) : world :=
  match ev with
  | funding_frame symbol message => (funding_on_message symbol message w).1
  | liquidation_frame message => (liquidation_on_message message w).1
  | trade_frame symbol message => (trade_on_message symbol message w).1
  | client_connects websocket => (websocket_endpoint_accept websocket w).1
  | client_disconnects websocket =>
      (websocket_endpoint_receive websocket (Raise WebSocketDisconnect) w).1
  | transport_breaks websocket => set_broken ({[websocket]} ∪ broken w) w
  end.

Definition hub_run (events : list hub_event) : world :=
  foldl hub_step initial_world events.

End Hub.

(** The texts sent to one client, oldest first. *)
Definition received_by (websocket : client) (w : world) : list event :=
  (filter (λ ce, ce.1 = websocket) (sent w)).*2.

(** ** A runtime for the worked examples *)

Definition example_runtime : PyRuntime :=
  {| float_of_str := λ s,
       if String.eqb s "50000" then Some 50000%float
       else if String.eqb s "3" then Some 3%float
       else if String.eqb s "1" then Some 1%float
       else if String.eqb s "5000" then Some 5000%float
       else if String.eqb s "4999" then Some 4999%float
       else if String.eqb s "15000" then Some 15000%float
       else if String.eqb s "14999" then Some 14999%float
       else if String.eqb s "100000" then Some 100000%float
       else if String.eqb s "99999" then Some 99999%float
       else if String.eqb s "0.5" then Some 0.5%float
       else None;
     float_of_int := λ n,
       if (Z.abs n <? 2 ^ 53)%Z then
         Some (if (n <? 0)%Z
               then (- of_uint63 (Uint63.of_Z (- n)))%float
               else of_uint63 (Uint63.of_Z n))
       else None;
     int_of_str := λ _, None;
     int_of_float := λ _, None;
     strftime_est := λ _, Some "12:00:00";
     format_f := λ _ _, "#" |}.


Definition example_trade (p q : string) (m : bool) : frame :=
  json_text (JObj [("s", JStr "BTCUSDT"); ("p", JStr p); ("q", JStr q);
                   ("T", JInt 1700000000000); ("m", JBool m)]).

(** A mark-price frame of BTCUSDT with the given funding rate text. *)
Definition example_funding (r : string) : frame :=
  json_text (JObj [("s", JStr "BTCUSDT"); ("r", JStr r)]).

(** ** Vocabulary of the properties *)

(** The state a broadcast of [data] leaves behind when no other task is
    scheduled during it. *)
Definition after_broadcast (data : event) (w : world) : world :=
  let live := filter (λ c, c ∉ broken w) (connected_clients w) in
  set_connected_clients live
    (set_sent (sent w ++ ((λ c, (c, data)) <$> live))
       (set_broadcasts (broadcasts w ++ [data]) w)).



(** An idempotent unregister, at one state and subscriber: both calls
    return normally and the second changes nothing. *)
Definition unregister_is_idempotent (w : world) (websocket : client) : Prop :=
  ∃ w1, remove_client websocket w = (w1, Ok tt)
        ∧ remove_client websocket w1 = (w1, Ok tt).

Section AfterTrade.
Context `{PyRuntime}.

(** The state after a trade at or above the trade threshold whose time
    rendered as [t]. *)
Definition after_trade (symbol : string) (f : trade_fields) (t : string)
    (w : world) : world :=
  let trade := make_trade symbol f t in
  let w1 := set_recent_trades (appendleft 30 trade (recent_trades w)) w in
  let w2 :=
    if (100000 <=? trade_usd_size_of f)%float then
      let alerts :=
        appendleft 15 (make_whale_alert trade (trade_usd_size_of f))
          (whale_alerts w1) in
      after_broadcast (whale_alert_update alerts) (set_whale_alerts alerts w1)
    else w1 in
  after_broadcast (trade_update (recent_trades w2)) w2.

End AfterTrade.

(** The three deques within their capacities. *)
Definition within_capacity (w : world) : Prop :=
  length (recent_liquidations w) ≤ 25
  ∧ length (recent_trades w) ≤ 30
  ∧ length (whale_alerts w) ≤ 15.

(** An insertion into a deque of capacity [maxlen]: the new item comes
    first; below capacity the old items all follow it, at capacity all of
    them but the last do. *)
Definition inserted_at_head {A} (maxlen : nat) (old new : list A) : Prop :=
  ∃ x, if decide (length old < maxlen) then new = x :: old
       else ∃ rest oldest, old = rest ++ [oldest] ∧ new = x :: rest.

(** [old] occurs somewhere in [s]. *)
Fixpoint occurs (old s : string) : bool :=
  String.prefix old s
  || match s with
     | EmptyString => false
     | String _ rest => occurs old rest
     end.

(** A trade whose display symbol has at most 4 characters. *)
Definition short_symbol (t : trade) : Prop := String.length (trade_symbol t) ≤ 4.

(** A result that, when it raises, raises an exception derived from
    [Exception]. *)
Definition raises_Exception {A} (r : result A) : Prop :=
  ∀ e, r = Raise e → is_Exception e = true.

(** An await outcome other than the cancellation of the task. *)
Definition not_cancelled (o : await_outcome) : Prop :=
  match o with
  | returned _ => True
  | raised e => is_Exception e = true
  end.

Definition running (p : phase) : Prop :=
  match p with Stopped _ => False | _ => True end.

(** A backoff after a processing error, at one outcome of [recv]: the
    consumer closes the connection and sleeps 5 seconds before it connects
    again. *)
Definition reconnects_with_backoff (step : stream_step) (o : await_outcome)
    (w : world) : Prop :=
  ∃ ios w', step Receiving o w = (Connecting, ios, w')
            ∧ io_close ∈ ios ∧ io_sleep 5 ∈ ios.

(** ** Startup *)

(** A background task of the application. *)
Inductive stream_task :=
| funding_task (symbol : string)
| liquidation_task
| trade_task (symbol : string).

(** The tasks [startup_event] creates, in creation order. *)
Definition startup_event : list stream_task :=
  (funding_task <$> symbols) ++ [liquidation_task] ++ (trade_task <$> symbols).

(** A hub event that a task of [startup_event] or a viewer can cause. *)
Definition from_started_task (ev : hub_event) : Prop :=
  match ev with
  | funding_frame symbol _ => funding_task symbol ∈ startup_event
  | liquidation_frame _ => liquidation_task ∈ startup_event
  | trade_frame symbol _ => trade_task symbol ∈ startup_event
  | _ => True
  end.

(** ** The dashboard script

    The script served by [get_dashboard].  A panel's markup is rebuilt from
    the payload on every update, so a panel is represented by the payload
    entries it renders. *)

(** The four string literals [getStatusEmoji] returns. *)
Inductive status_emoji :=
| status_high
| status_pos
| status_neg
| status_norm.

Definition getStatusEmoji (yearlyRate : float) : status_emoji :=
  if (30 <? yearlyRate)%float then status_high
  else if (5 <? yearlyRate)%float then status_pos
  else if (yearlyRate <? -10)%float then status_neg
  else status_norm.

(** The three string literals [getWhaleEmoji] returns. *)
Inductive whale_emoji :=
| whale_gem
| whale_bank
| whale_bolt.

Definition getWhaleEmoji (usdValue : float) : whale_emoji :=
  if (1000000 <=? usdValue)%float then whale_gem
  else if (500000 <=? usdValue)%float then whale_bank
  else whale_bolt.

(** What the four panels show: one funding row per symbol whose data is not
    null, and one item per liquidation, trade and whale alert. *)
Record dashboard := {
  funding_rows : gmap string funding_snapshot;
  liquidation_items : list liquidation;
  trade_items : list trade;
  whale_items : list whale_alert;
}.

(** The page as served: an empty table body and three empty containers. *)
Definition empty_dashboard : dashboard :=
  {| funding_rows := ∅; liquidation_items := [];
     trade_items := []; whale_items := [] |}.

Definition updateFunding (fundingData : funding_table) (page : dashboard)
  : dashboard :=
  {| funding_rows := omap (λ data, data) fundingData;
     liquidation_items := liquidation_items page;
     trade_items := trade_items page; whale_items := whale_items page |}.

Definition updateLiquidations (liquidations : list liquidation)
    (page : dashboard) : dashboard :=
  {| funding_rows := funding_rows page; liquidation_items := liquidations;
     trade_items := trade_items page; whale_items := whale_items page |}.

Definition updateTrades (trades : list trade) (page : dashboard) : dashboard :=
  {| funding_rows := funding_rows page;
     liquidation_items := liquidation_items page;
     trade_items := trades; whale_items := whale_items page |}.

Definition updateWhaleAlerts (alerts : list whale_alert) (page : dashboard)
  : dashboard :=
  {| funding_rows := funding_rows page;
     liquidation_items := liquidation_items page;
     trade_items := trade_items page; whale_items := alerts |}.

(** [json.dumps] writes a NaN and the infinities as the bare words [NaN]
    and [Infinity], which [JSON.parse] rejects: a text is parsed when every
    float in it is finite. *)
Fixpoint json_parses (obj : json) : bool :=
  match obj with
  | JFloat x => PrimFloat.is_finite x
  | JArr items => forallb json_parses items
  | JObj items => forallb (λ kv, json_parses kv.2) items
  | JNull | JBool _ | JInt _ | JStr _ => true
  end.

Definition funding_parses (data : funding_table) : bool :=
  forallb (λ kv : string * option funding_snapshot,
             match kv.2 with
             | Some snap =>
                 PrimFloat.is_finite (funding_rate snap)
                 && PrimFloat.is_finite (yearly_rate snap)
             | None => true
             end)
    (map_to_list data).

Definition liquidation_parses (l : liquidation) : bool :=
  json_parses (liq_side l).

Definition trade_parses (t : trade) : bool :=
  PrimFloat.is_finite (trade_price t).

Definition whale_alert_parses (a : whale_alert) : bool :=
  trade_parses (whale_trade a) && PrimFloat.is_finite (usd_value a).

Definition event_parses (data : event) : bool :=
  match data with
  | initial_data funding liquidations trades whales =>
      funding_parses funding && forallb liquidation_parses liquidations
      && forallb trade_parses trades && forallb whale_alert_parses whales
  | funding_update data => funding_parses data
  | liquidation_update data => forallb liquidation_parses data
  | trade_update data => forallb trade_parses data
  | whale_alert_update data => forallb whale_alert_parses data
  end.

(** The switch of [ws.onmessage] on the type of the parsed event. *)
Definition dispatch (page : dashboard) (data : event) : dashboard :=
  match data with
  | initial_data funding liquidations trades whales =>
      updateWhaleAlerts whales
        (updateTrades trades
           (updateLiquidations liquidations (updateFunding funding page)))
  | funding_update data => updateFunding data page
  | liquidation_update data => updateLiquidations data page
  | trade_update data => updateTrades data page
  | whale_alert_update data => updateWhaleAlerts data page
  end.

(** [ws.onmessage]: [JSON.parse] and the switch; when the parse throws,
    the handler ends and the page stays as it is. *)
Definition onmessage (page : dashboard) (data : event) : dashboard :=
  if event_parses data then dispatch page data else page.

(** The page of a viewer that has been sent [texts], oldest first. *)
Definition dashboard_of (texts : list event) : dashboard :=
  foldl onmessage empty_dashboard texts.

(** The payload an event carries for each panel, if it carries one. *)
Definition funding_of (data : event) : option funding_table :=
  match data with
  | initial_data funding _ _ _ => Some funding
  | funding_update funding => Some funding
  | _ => None
  end.

Definition liquidations_of (data : event) : option (list liquidation) :=
  match data with
  | initial_data _ liquidations _ _ => Some liquidations
  | liquidation_update liquidations => Some liquidations
  | _ => None
  end.

Definition trades_of (data : event) : option (list trade) :=
  match data with
  | initial_data _ _ trades _ => Some trades
  | trade_update trades => Some trades
  | _ => None
  end.

Definition whales_of (data : event) : option (list whale_alert) :=
  match data with
  | initial_data _ _ _ whales => Some whales
  | whale_alert_update whales => Some whales
  | _ => None
  end.

(** The payload of the latest text that could be parsed and carries
    one. *)
Definition latest {A} (payload_of : event → option A) (texts : list event)
  : option A :=
  last (omap payload_of (filter (λ data, event_parses data = true) texts)).

(** ** Further vocabulary *)

(** A formatted amount with a magnitude suffix. *)
Definition has_magnitude_suffix (s : string) : Prop :=
  ∃ body, s = "$" +:+ body +:+ "K" ∨ s = "$" +:+ body +:+ "M".

(** A liquidation whose label and colour follow its side. *)
Definition liquidation_well_formed (l : liquidation) : Prop :=
  String.length (liq_symbol l) ≤ 4
  ∧ ((liq_side l = JStr "SELL" ∧ liq_side_text l = "LONG LIQ"
      ∧ liq_color_class l = "liquidation-long")
     ∨ (liq_side l ≠ JStr "SELL" ∧ liq_side_text l = "SHORT LIQ"
        ∧ liq_color_class l = "liquidation-short")).

(** A trade whose colour follows its direction. *)
Definition trade_well_formed (t : trade) : Prop :=
  (trade_type t = "BUY" ∧ trade_color_class t = "trade-buy")
  ∨ (trade_type t = "SELL" ∧ trade_color_class t = "trade-sell").

(** A whale alert whose tier, class and emoji follow its value. *)
Definition whale_alert_well_formed (a : whale_alert) : Prop :=
  (100000 <=? usd_value a)%float = true
  ∧ trade_well_formed (whale_trade a)
  ∧ ((size_indicator a = "MEGA" ∧ whale_class a = "whale-mega"
      ∧ getWhaleEmoji (usd_value a) = whale_gem
      ∧ (1000000 <=? usd_value a)%float = true)
     ∨ (size_indicator a = "HUGE" ∧ whale_class a = "whale-huge"
        ∧ getWhaleEmoji (usd_value a) = whale_bank
        ∧ (500000 <=? usd_value a)%float = true
        ∧ (usd_value a <? 1000000)%float = true)
     ∨ (size_indicator a = "BIG" ∧ whale_class a = "whale-big"
        ∧ getWhaleEmoji (usd_value a) = whale_bolt
        ∧ (usd_value a <? 500000)%float = true)).

(** A funding snapshot whose yearly rate and class follow its rate. *)
Definition funding_snapshot_consistent (snap : funding_snapshot) : Prop :=
  yearly_rate snap = (funding_rate snap * 3 * 365)%float
  ∧ style_class snap = get_funding_style_class (yearly_rate snap).

(** An update event that carries the container of [w] it is about. *)
Definition carries_current (w : world) (e : event) : Prop :=
  match e with
  | funding_update data => data = funding_data w
  | liquidation_update data => data = recent_liquidations w
  | trade_update data => data = recent_trades w
  | whale_alert_update data => data = whale_alerts w
  | initial_data _ _ _ _ => False
  end.

(** Texts that, if any, begin with the initial snapshot. *)
Definition starts_with_snapshot (texts : list event) : Prop :=
  match texts with
  | [] => True
  | initial_data _ _ _ _ :: _ => True
  | _ :: _ => False
  end.

Definition is_open (a : io) : bool :=
  match a with io_open => true | _ => false end.

Definition is_close (a : io) : bool :=
  match a with io_close => true | _ => false end.

Definition is_sleep (a : io) : bool :=
  match a with io_sleep _ => true | _ => false end.

Definition is_raised (o : await_outcome) : bool :=
  match o with raised _ => true | returned _ => false end.

(** The frame a [recv] returned, if it returned. *)
Definition returned_frame (o : await_outcome) : option frame :=
  match o with returned message => Some message | raised _ => None end.

(** 1 for a consumer that holds an open connection, 0 otherwise. *)
Definition connected (p : phase) : nat :=
  match p with Receiving => 1 | _ => 0 end.

(** How many items of [l] satisfy [f]. *)
Fixpoint tally {A} (f : A → bool) (l : list A) : nat :=
  match l with
  | [] => 0
  | a :: rest => (if f a then 1 else 0) + tally f rest
  end.

(** Every sleep in a trace lasts 5 seconds. *)
Definition sleeps_five (a : io) : Prop :=
  match a with io_sleep seconds => seconds = 5 | _ => True end.

(** A step that opens and closes connections in step with its phase. *)
Definition step_balanced (step : stream_step) : Prop :=
  ∀ p o w,
    tally is_open (step p o w).1.2 + connected p
    = tally is_close (step p o w).1.2 + connected (step p o w).1.1.

(** A step that sleeps 5 seconds, and only on an outcome that raised. *)
Definition step_sleeps_on_raise (step : stream_step) : Prop :=
  ∀ p o w,
    Forall sleeps_five (step p o w).1.2
    ∧ tally is_sleep (step p o w).1.2 ≤ (if is_raised o then 1 else 0).

(** A step that changes the shared state only as the hub event of the
    frame it received does. *)
Definition step_acts_as (step : stream_step) (event_of : frame → hub_event)
    (hub : world → hub_event → world) : Prop :=
  ∀ p o w,
    (step p o w).2 = w
    ∨ ∃ message, o = returned message
                 ∧ (step p o w).2 = hub w (event_of message).

(** A viewer that, once registered with a working transport, has been sent
    something, and whose texts begin with the snapshot. *)
Definition snapshot_first (w : world) (websocket : client) : Prop :=
  (websocket ∈ connected_clients w → websocket ∉ broken w →
   received_by websocket w ≠ [])
  ∧ starts_with_snapshot (received_by websocket w).

(** * Properties *)

(** ** Order facts on binary64 numbers *)

Module PyFloat.

Lemma SFcompare_antisym (a b : spec_float) :
  SFcompare b a = CompOpp <$> SFcompare a b.
Proof.
  destruct a as [sa|sa| |sa ma ea], b as [sb|sb| |sb mb eb]; cbn;
    try reflexivity; try (by destruct sa); try (by destruct sb);
    try (by destruct sa, sb).
  f_equal. rewrite (Z.compare_antisym ea eb).
  destruct sa, sb; cbn; try reflexivity;
    destruct (ea ?= eb)%Z; cbn; try reflexivity.
  - rewrite CompOpp_involutive.
    exact (Pos.compare_cont_antisym mb ma Eq).
  - symmetry. exact (Pos.compare_cont_antisym ma mb Eq).
Qed.

Lemma SFcompare_some (a b : spec_float) :
  SFeqb a a = true → SFeqb b b = true → is_Some (SFcompare a b).
Proof.
  destruct a as [sa|sa| |sa ma ea], b as [sb|sb| |sb mb eb]; cbn;
    intros Ha Hb; try discriminate; eauto.
Qed.

(** On numbers (no NaN), [x <= y] is the negation of [y < x]. *)
Lemma leb_negb_ltb (x y : float) :
  is_nan x = false → is_nan y = false →
  (x <=? y)%float = negb (y <? x)%float.
Proof.
  unfold is_nan. rewrite !negb_false_iff.
  rewrite !FloatAxioms.eqb_spec, FloatAxioms.leb_spec, FloatAxioms.ltb_spec.
  intros Hx Hy. unfold SFleb, SFltb.
  rewrite (SFcompare_antisym (Prim2SF x) (Prim2SF y)).
  destruct (SFcompare_some _ _ Hx Hy) as [c ->]. by destruct c.
Qed.

Lemma ltb_not_nan (x y : float) :
  (x <? y)%float = true → is_nan x = false ∧ is_nan y = false.
Proof.
  unfold is_nan. rewrite !negb_false_iff.
  rewrite !FloatAxioms.eqb_spec, FloatAxioms.ltb_spec.
  unfold SFltb, SFeqb.
  destruct (Prim2SF x) as [sa|sa| |sa ma ea],
           (Prim2SF y) as [sb|sb| |sb mb eb]; cbn; try discriminate;
    intros _; rewrite ?Z.compare_refl, ?Pos.compare_cont_refl;
    (split; [try by destruct sa | try by destruct sb]).
Qed.

Lemma leb_not_nan (x y : float) :
  (x <=? y)%float = true → is_nan x = false ∧ is_nan y = false.
Proof.
  unfold is_nan. rewrite !negb_false_iff.
  rewrite !FloatAxioms.eqb_spec, FloatAxioms.leb_spec.
  unfold SFleb, SFeqb.
  destruct (Prim2SF x) as [sa|sa| |sa ma ea],
           (Prim2SF y) as [sb|sb| |sb mb eb]; cbn; try discriminate;
    intros _; rewrite ?Z.compare_refl, ?Pos.compare_cont_refl;
    (split; [try by destruct sa | try by destruct sb]).
Qed.

Lemma compare_cont_Eq_spec (p q : positive) :
  CompareSpec (p = q) (p < q)%positive (q < p)%positive
    (Pos.compare_cont Eq p q).
Proof.
  rewrite Pos.compare_cont_spec.
  destruct (Pos.compare_spec p q); cbn; by constructor.
Qed.

Lemma SFleb_trans (a b c : spec_float) :
  SFleb a b = true → SFleb b c = true → SFleb a c = true.
Proof.
  unfold SFleb.
  destruct a as [sa|sa| |sa ma ea], b as [sb|sb| |sb mb eb],
           c as [sc|sc| |sc mc ec]; cbn; try discriminate; try reflexivity;
    try (by destruct sa); try (by destruct sb); try (by destruct sc);
    try (by destruct sa, sb); try (by destruct sb, sc);
    try (by destruct sa, sc); try (by destruct sa, sb, sc).
  destruct sa, sb, sc; cbn; try discriminate; try reflexivity.
  all: destruct (Z.compare_spec ea eb), (Z.compare_spec eb ec),
         (Z.compare_spec ea ec); try discriminate; try reflexivity; try lia.
  all: subst.
  all: destruct (compare_cont_Eq_spec ma mb), (compare_cont_Eq_spec mb mc),
         (compare_cont_Eq_spec ma mc); cbn;
         try discriminate; try reflexivity; try lia.
Qed.

Lemma leb_trans (x y z : float) :
  (x <=? y)%float = true → (y <=? z)%float = true → (x <=? z)%float = true.
Proof. rewrite !FloatAxioms.leb_spec. apply SFleb_trans. Qed.

End PyFloat.


(** ** Severity classification *)

(** A rate above [lo] that is not above [hi] is at most [hi]. *)
Lemma between_tiers (lo hi r : float) :
  is_nan hi = false →
  (lo <? r)%float = true → (hi <? r)%float = false →
  (r <=? hi)%float = true.
Proof.
  intros Hhi Hlo Hnot.
  destruct (PyFloat.ltb_not_nan _ _ Hlo) as [_ Hr].
  by rewrite (PyFloat.leb_negb_ltb r hi Hr Hhi), Hnot.
Qed.

(** C8: the class is a function of the annualized rate alone: extreme above
    50, high in (30, 50], positive in (5, 30], negative below -10 and
    normal otherwise (a NaN rate included); 60, 40, 10, -15 and 0 fall in
    the five classes in this order. *)
Theorem severity_classification (r : float) :
  get_funding_style_class r =
    (if (50 <? r)%float then "funding-extreme"
     else if (30 <? r)%float && (r <=? 50)%float then "funding-high"
     else if (5 <? r)%float && (r <=? 30)%float then "funding-positive"
     else if (r <? -10)%float then "funding-negative"
     else "funding-normal")
  ∧ get_funding_style_class 60 = "funding-extreme"
  ∧ get_funding_style_class 40 = "funding-high"
  ∧ get_funding_style_class 10 = "funding-positive"
  ∧ get_funding_style_class (-15) = "funding-negative"
  ∧ get_funding_style_class 0 = "funding-normal".
Proof.
  split; [|by repeat split].
  unfold get_funding_style_class.
  destruct (50 <? r)%float eqn:H50; [done|].
  destruct (30 <? r)%float eqn:H30.
  { by rewrite (between_tiers 30 50 r). }
  cbn [andb].
  destruct (5 <? r)%float eqn:H5; [|done].
  by rewrite (between_tiers 5 30 r).
Qed.

(** ** The subscriber registry *)

Lemma set_sent_same (w : world) : set_sent (sent w) w = w.
Proof. by destruct w. Qed.

Lemma set_connected_clients_same (w : world) :
  set_connected_clients (connected_clients w) w = w.
Proof. by destruct w. Qed.

Lemma filter_all {A} (P : A → Prop) `{!∀ x, Decision (P x)} (l : list A) :
  Forall P l → filter P l = l.
Proof.
  induction 1 as [|x l Hx _ IH]; [done|].
  by rewrite filter_cons_True, IH.
Qed.

Lemma list_remove_absent (x : client) (l : list client) :
  x ∉ l → list_remove x l = None.
Proof.
  induction l as [|y l IH]; [done|].
  rewrite not_elem_of_cons. intros [Hne Hl]. cbn.
  destruct (decide (y = x)) as [->|_]; [done|]. by rewrite IH.
Qed.

Lemma list_remove_present (x : client) (l : list client) :
  x ∈ l → ∃ l1 l2, l = l1 ++ x :: l2 ∧ (x ∉ l1)
                   ∧ list_remove x l = Some (l1 ++ l2).
Proof.
  induction l as [|y l IH]; [by rewrite elem_of_nil|].
  intros Hin. cbn. destruct (decide (y = x)) as [->|Hne].
  - exists [], l. split_and!; [done|apply not_elem_of_nil|done].
  - apply elem_of_cons in Hin as [->|Hin]; [done|].
    destruct (IH Hin) as (l1 & l2 & -> & Hl1 & ->).
    exists (y :: l1), l2. split_and!; [done| |done].
    rewrite not_elem_of_cons. split; [congruence|done].
Qed.

Lemma list_remove_middle (x : client) (l1 l2 : list client) :
  x ∉ l1 → list_remove x (l1 ++ x :: l2) = Some (l1 ++ l2).
Proof.
  induction l1 as [|y l1 IH]; cbn.
  - intros _. by rewrite decide_True.
  - rewrite not_elem_of_cons. intros [Hne Hl1].
    rewrite decide_False by congruence. by rewrite IH.
Qed.

(** With one subscriber registered, the second unregister raises. *)
Lemma unregister_twice_raises :
  ¬ unregister_is_idempotent (set_connected_clients [7] initial_world) 7.
Proof.
  intros (w1 & H1 & H2). cbn in H1. injection H1 as <-. discriminate H2.
Qed.

(** A viewer whose transport broke is dropped by the next broadcast; when
    its handler then sees the disconnect, the removal raises. *)
Example disconnect_after_failed_send :
  let w := @hub_run example_runtime
             [client_connects 7; transport_breaks 7;
              trade_frame "btcusdt" (example_trade "50000" "3" false)] in
  connected_clients w = []
  ∧ websocket_endpoint_receive 7 (Raise WebSocketDisconnect) w
    = (w, Raise ValueError).
Proof. by vm_compute. Qed.

(** C1 (amended): unregistering a subscriber that is absent from the
    registry raises [ValueError] and changes nothing; unregistering one that
    is registered once removes it, after which a second unregister raises
    and leaves the state of the first. *)
Theorem unregister_absent_raises (w : world) (websocket : client)
    (Hnodup : NoDup (connected_clients w)) :
  (websocket ∉ connected_clients w →
     remove_client websocket w = (w, Raise ValueError))
  ∧ (websocket ∈ connected_clients w →
     ∃ w1, remove_client websocket w = (w1, Ok tt)
           ∧ connected_clients w1
             = filter (λ c, c ≠ websocket) (connected_clients w)
           ∧ remove_client websocket w1 = (w1, Raise ValueError)).
Proof.
  split; unfold remove_client.
  - intros Habsent. by rewrite list_remove_absent.
  - intros Hin.
    destruct (list_remove_present _ _ Hin) as (l1 & l2 & Hl & Hl1 & Hrm).
    rewrite Hrm. rewrite Hl in Hnodup.
    apply NoDup_app in Hnodup as (_ & Hdisj & Hnd2).
    apply NoDup_cons in Hnd2 as [Hl2 _].
    assert (Hkeep : filter (λ c, c ≠ websocket) (l1 ++ l2) = l1 ++ l2).
    { apply filter_all, Forall_forall. intros c Hc ->.
      apply elem_of_app in Hc as [Hc|Hc]; done. }
    eexists. split_and!; [done| |].
    + cbn. rewrite Hl, filter_app, filter_cons_False by (intros Hc; by apply Hc).
      by rewrite <- filter_app, Hkeep.
    + cbn. rewrite list_remove_absent; [done|].
      rewrite not_elem_of_app. done.
Qed.

Lemma unregister_absent_raises_witness :
  ∃ w1, remove_client 7 (set_connected_clients [7; 8] initial_world)
          = (w1, Ok tt)
        ∧ connected_clients w1 = [8]
        ∧ remove_client 7 w1 = (w1, Raise ValueError).
Proof.
  apply (unregister_absent_raises (set_connected_clients [7; 8] initial_world) 7).
  - cbn. apply NoDup_cons. split; [|apply NoDup_singleton].
    rewrite list_elem_of_singleton. lia.
  - cbn. apply elem_of_cons. by left.
Defined.

(** ** Fan-out *)

(** The first loop hands the text to every live transport, in list order,
    and collects the clients whose transport raised. *)
Lemma send_to_each_spec (data : event) (clients disconnected : list client)
    (w : world) :
  send_to_each data clients disconnected w
  = (set_sent
       (sent w ++ ((λ c, (c, data)) <$> filter (λ c, c ∉ broken w) clients)) w,
     Ok (disconnected ++ filter (λ c, c ∈ broken w) clients)).
Proof.
  revert disconnected w.
  induction clients as [|c clients IH]; intros disconnected w.
  - cbn. unfold ret. by rewrite !app_nil_r, set_sent_same.
  - cbn [send_to_each]. unfold send_text.
    destruct (decide (c ∈ broken w)) as [Hc|Hc].
    + rewrite bool_decide_eq_true_2 by done. cbn [is_Exception].
      rewrite IH, filter_cons_False by (intros Hn; by apply Hn).
      by rewrite filter_cons_True, <- app_assoc by done.
    + rewrite bool_decide_eq_false_2 by done.
      rewrite IH, filter_cons_True, filter_cons_False by done. cbn.
      by rewrite <- app_assoc.
Qed.

(** The second loop finds every collected client still in the list, so no
    removal raises, and what stays are the clients with a live transport. *)
Lemma remove_each_spec (dead : gset client) (clients kept : list client)
    (w : world) :
  connected_clients w = kept ++ clients →
  Forall (λ c, c ∉ dead) kept →
  remove_each (filter (λ c, c ∈ dead) clients) w
  = (set_connected_clients (kept ++ filter (λ c, c ∉ dead) clients) w, Ok tt).
Proof.
  revert kept w.
  induction clients as [|c clients IH]; intros kept w Hw Hkept.
  - cbn. unfold ret. by rewrite <- Hw, set_connected_clients_same.
  - destruct (decide (c ∈ dead)) as [Hc|Hc].
    + rewrite filter_cons_True, filter_cons_False by
        (done || (intros Hn; by apply Hn)).
      cbn [remove_each]. unfold bind at 1, remove_client at 1.
      rewrite Hw, list_remove_middle.
      2:{ intros Hin. by apply (proj1 (Forall_forall _ _) Hkept c Hin). }
      by rewrite (IH kept).
    + rewrite filter_cons_False, filter_cons_True by done.
      rewrite (IH (kept ++ [c])).
      * by rewrite <- app_assoc.
      * by rewrite <- app_assoc.
      * apply Forall_app. split; [done|]. by apply Forall_singleton.
Qed.

Lemma broadcast_to_clients_eq (data : event) (w : world) :
  broadcast_to_clients data w = (after_broadcast data w, Ok tt).
Proof.
  unfold after_broadcast, broadcast_to_clients, bind, modify, get. cbn.
  destruct (connected_clients w) as [|c clients] eqn:Hclients.
  - cbn. unfold ret. rewrite app_nil_r.
    destruct w; cbn in *. by subst.
  - rewrite send_to_each_spec. cbn [broken set_broadcasts app].
    rewrite (remove_each_spec (broken w) (c :: clients) []); [done| |done].
    by cbn.
Qed.

(** ** The publish coroutine, step by step *)

(** A send leaves everything but the record of the texts sent. *)
Lemma serialize_set_sent (p : payload) (v : list (client * event)) (w : world) :
  serialize p (set_sent v w) = serialize p w.
Proof. by destruct p. Qed.

(** A resumed send either records the text or adds the client to
    [disconnected], and the loop goes on with the next index. *)
Lemma publish_resume_sending (p : payload) (text : event) (c : client)
    (next : nat) (disconnected : list client) (w : world) :
  publish_resume (sending p text c next disconnected) w
  = publish_next p next
      (if bool_decide (c ∈ broken w) then disconnected ++ [c] else disconnected)
      (if bool_decide (c ∈ broken w) then w
       else set_sent (sent w ++ [(c, text)]) w).
Proof.
  unfold publish_resume, send_text. by destruct (bool_decide (c ∈ broken w)).
Qed.

Lemma drop_lookup_cons (i : nat) (l rest : list client) (c : client) :
  drop i l = c :: rest → l !! i = Some c ∧ drop (S i) l = rest.
Proof.
  intros Hdrop. split.
  - rewrite <- (Nat.add_0_r i), <- lookup_drop, Hdrop. done.
  - replace (S i) with (i + 1) by lia. by rewrite <- drop_drop, Hdrop.
Qed.

(** With no other task in between, the steps from a suspended send are the
    rest of the first loop followed by the second loop. *)
Lemma publish_run_alone (p : payload) (data : event) (rest : list client) :
  ∀ (c : client) (i : nat) (disconnected : list client) (w : world),
    drop i (connected_clients w) = c :: rest →
    serialize p w = data →
    publish_run (replicate (S (length rest)) (λ w, w))
      (sending p data c (S i) disconnected) w
    = let '(w', r) :=
        (let* d := send_to_each data (c :: rest) disconnected in
         remove_each d) w in
      (w', finished r).
Proof.
  induction rest as [|c' rest IH]; intros c i disconnected w Hdrop Hdata;
    apply drop_lookup_cons in Hdrop as [Hc Hrest].
  - cbn [length replicate publish_run].
    rewrite publish_resume_sending. unfold publish_next.
    assert (Hend : ∀ v, connected_clients
                          (if bool_decide (c ∈ broken w) then w
                           else set_sent v w) !! S i = None).
    { intros v. apply lookup_ge_None.
      apply (f_equal length) in Hrest. rewrite length_drop in Hrest.
      destruct (bool_decide (c ∈ broken w)); cbn in *; lia. }
    rewrite Hend. unfold bind. cbn [send_to_each]. unfold send_text, ret.
    destruct (bool_decide (c ∈ broken w)); cbn [is_Exception];
      by destruct (remove_each _ _).
  - cbn [length]. rewrite replicate_S. cbn [publish_run].
    rewrite publish_resume_sending. unfold publish_next.
    apply drop_lookup_cons in Hrest as Hnext. destruct Hnext as [Hnext _].
    assert (Hsame : ∀ v, connected_clients
                           (if bool_decide (c ∈ broken w) then w
                            else set_sent v w) = connected_clients w)
      by (intros v; by destruct (bool_decide (c ∈ broken w))).
    rewrite Hsame, Hnext.
    assert (Htext : ∀ v, serialize p (if bool_decide (c ∈ broken w) then w
                                      else set_sent v w) = data).
    { intros v. destruct (bool_decide (c ∈ broken w)); [done|].
      by rewrite serialize_set_sent. }
    rewrite Htext, IH by (by rewrite ?Hsame).
    unfold bind. cbn [send_to_each]. unfold send_text at 2.
    by destruct (bool_decide (c ∈ broken w)).
Qed.

(** Run alone, the steps make the state transformer
    [broadcast_to_clients]. *)
Lemma publish_alone_is_broadcast (p : payload) (w : world) :
  publish_alone p w
  = let '(w', r) := broadcast_to_clients (serialize p w) w in
    (w', finished r).
Proof.
  unfold publish_alone, publish_start, broadcast_to_clients, bind, modify, get.
  cbn [connected_clients set_broadcasts].
  destruct (connected_clients w) as [|c rest] eqn:Hclients.
  - done.
  - unfold publish_next. cbn [connected_clients set_broadcasts].
    rewrite Hclients. cbn [lookup list_lookup length].
    rewrite (publish_run_alone p (serialize p w) rest c 0 []).
    + reflexivity.
    + cbn. by rewrite Hclients.
    + by destruct p.
Qed.

Lemma publish_alone_eq (p : payload) (w : world) :
  publish_alone p w = (after_broadcast (serialize p w) w, finished (Ok tt)).
Proof. by rewrite publish_alone_is_broadcast, broadcast_to_clients_eq. Qed.




(** A subscriber that leaves while a publish is suspended in the send to
    it moves the others one place down under the iterator: of three
    working subscribers the second one is never handed the event, and the
    publish returns normally. *)
Example removal_during_send_skips :
  let w := set_connected_clients [1; 2; 3] initial_world in
  let p := snapshot_of (trade_update []) in
  let leaves := λ w, (remove_client 1 w).1 in
  let '(w', s) := publish_start p w in
  let '(w2, s2) := publish_run [leaves; λ w, w] s w' in
  s2 = finished (Ok tt)
  ∧ connected_clients w2 = [2; 3]
  ∧ sent w2 = [(1, trade_update []); (3, trade_update [])].
Proof. by vm_compute. Qed.



(** Three subscribers, the second with a broken transport. *)
Example fan_out_three :
  let w := set_broken {[2]} (set_connected_clients [1; 2; 3] initial_world) in
  let w' := (broadcast_to_clients (trade_update []) w).1 in
  connected_clients w' = [1; 3]
  ∧ sent w' = [(1, trade_update []); (3, trade_update [])].
Proof. by vm_compute. Qed.

(** ** Bounded deques *)

Lemma appendleft_take {A} (maxlen : nat) (x : A) (d : list A) :
  length d ≤ maxlen → appendleft maxlen x d = take maxlen (x :: d).
Proof.
  intros Hlen. unfold appendleft.
  destruct (maxlen <? length (x :: d))%nat eqn:Hfull.
  - apply Nat.ltb_lt in Hfull. cbn [length] in Hfull.
    rewrite removelast_firstn_len. cbn [length Nat.pred].
    by replace (length d) with maxlen by lia.
  - apply Nat.ltb_ge in Hfull. by rewrite take_ge.
Qed.

Lemma appendleft_length {A} (maxlen : nat) (x : A) (d : list A) :
  length d ≤ maxlen → length (appendleft maxlen x d) ≤ maxlen.
Proof.
  intros Hlen. rewrite appendleft_take, length_take by done. lia.
Qed.

(** Below capacity nothing is evicted. *)
Lemma appendleft_room {A} (maxlen : nat) (x : A) (d : list A) :
  length d < maxlen → appendleft maxlen x d = x :: d.
Proof.
  intros Hlen. rewrite appendleft_take, take_ge by lia || (cbn; lia). done.
Qed.

(** At capacity the rightmost item, and only it, is evicted. *)
Lemma appendleft_full {A} (maxlen : nat) (x : A) (d : list A) :
  0 < maxlen → length d = maxlen →
  ∃ rest oldest, d = rest ++ [oldest] ∧ appendleft maxlen x d = x :: rest.
Proof.
  intros Hpos Hlen.
  destruct (decide (d = [])) as [->|Hne]; [cbn in Hlen; lia|].
  exists (removelast d), (List.last d x). split.
  - by apply app_removelast_last.
  - unfold appendleft.
    replace (maxlen <? length (x :: d))%nat with true
      by (symmetry; apply Nat.ltb_lt; cbn; lia).
    cbn. by destruct d.
Qed.

(** After any sequence of insertions into an empty deque, the deque holds
    the newest [maxlen] items, newest first. *)
Lemma appendleft_sequence {A} (maxlen : nat) (xs : list A) :
  foldl (λ d x, appendleft maxlen x d) [] xs = take maxlen (reverse xs).
Proof.
  induction xs as [|x xs IH] using rev_ind; [by destruct maxlen|].
  rewrite foldl_app, reverse_snoc. cbn [foldl]. rewrite IH.
  rewrite appendleft_take by (rewrite length_take; lia).
  destruct maxlen as [|k]; [done|]. cbn [take].
  by rewrite take_take, Nat.min_l by lia.
Qed.

(** ** What a processed message does to the state *)

(** Reads the fields of a state built by setters and broadcasts. *)
Ltac world_simpl :=
  cbn [fst snd after_broadcast
       set_funding_data set_recent_liquidations set_recent_trades
       set_whale_alerts set_connected_clients set_broken set_sent
       set_broadcasts
       funding_data recent_liquidations recent_trades whale_alerts
       connected_clients broken sent broadcasts] in *.

Section MessageEffects.
Context `{PyRuntime}.

Lemma funding_apply_eq (symbol : string) (f : funding_fields) (w : world) :
  funding_apply symbol f w
  = (let table := <[symbol := Some (make_funding f)]> (funding_data w) in
     after_broadcast (funding_update table) (set_funding_data table w),
     Ok tt).
Proof.
  unfold funding_apply, bind, modify, get. cbn -[broadcast_to_clients].
  by rewrite broadcast_to_clients_eq.
Qed.

Lemma liquidation_apply_eq (f : liquidation_fields) (w : world) :
  liquidation_apply f w
  = (if (5000 <=? liquidation_usd_size f)%float
     then let d := appendleft 25 (make_liquidation f) (recent_liquidations w) in
          after_broadcast (liquidation_update d) (set_recent_liquidations d w)
     else w,
     Ok tt).
Proof.
  unfold liquidation_apply.
  destruct (5000 <=? liquidation_usd_size f)%float; [|done].
  unfold bind, modify, get. cbn -[broadcast_to_clients].
  by rewrite broadcast_to_clients_eq.
Qed.

Lemma trade_apply_eq (symbol : string) (f : trade_fields) (w : world) :
  trade_apply symbol f w
  = if (15000 <=? trade_usd_size_of f)%float then
      match strftime_est (tf_trade_time f) with
      | Some t => (after_trade symbol f t w, Ok tt)
      | None => (w, Raise OverflowError)
      end
    else (w, Ok tt).
Proof.
  unfold trade_apply, after_trade.
  destruct (15000 <=? trade_usd_size_of f)%float; [|done].
  unfold bind at 1, lift.
  destruct (strftime_est (tf_trade_time f)) as [t|]; [|done]. cbn [of_option].
  destruct (100000 <=? trade_usd_size_of f)%float;
    unfold bind, modify, get, ret; cbn -[broadcast_to_clients];
    by rewrite !broadcast_to_clients_eq.
Qed.

Lemma on_message_eq {A} (decode : result A) (apply : A → M unit) (w : world) :
  (let* f := lift decode in apply f) w
  = match decode with Ok f => apply f w | Raise e => (w, Raise e) end.
Proof. unfold bind, lift. by destruct decode. Qed.

End MessageEffects.

(** ** Threshold filtering *)




(** ** How one hub event changes the history buffers *)

(** Runs a hub step symbolically down to the reads of the fields. *)
Ltac hub_step_cases ev :=
  destruct ev as [symbol message|message|symbol message
                 |websocket|websocket|websocket];
  cbn [hub_step];
  [ unfold funding_on_message; rewrite on_message_eq;
    destruct (funding_decode message) as [f|e];
    [rewrite funding_apply_eq|]
  | unfold liquidation_on_message; rewrite on_message_eq;
    destruct (liquidation_decode message) as [f|e];
    [rewrite liquidation_apply_eq;
     destruct (5000 <=? liquidation_usd_size f)%float eqn:Hkeep|]
  | unfold trade_on_message; rewrite on_message_eq;
    destruct (trade_decode message) as [f|e];
    [rewrite trade_apply_eq;
     destruct (15000 <=? trade_usd_size_of f)%float eqn:Hkeep;
     [destruct (strftime_est (tf_trade_time f)) as [t|] eqn:Htime;
      [unfold after_trade;
       destruct (100000 <=? trade_usd_size_of f)%float eqn:Hwhale|]|]|]
  | unfold websocket_endpoint_accept, bind, modify, get, send_text;
    cbn [connected_clients broken set_connected_clients];
    destruct (bool_decide (websocket ∈ broken _)) eqn:Hbroken
  | unfold websocket_endpoint_receive, bind, remove_client;
    destruct (list_remove websocket (connected_clients _)) as [l|] eqn:Hremove
  | idtac ].

Section HubSteps.
Context `{PyRuntime}.

Lemma hub_step_liquidations (w : world) (ev : hub_event) :
  recent_liquidations (hub_step w ev) = recent_liquidations w
  ∨ ∃ f, recent_liquidations (hub_step w ev)
         = appendleft 25 (make_liquidation f) (recent_liquidations w).
Proof. hub_step_cases ev; world_simpl; eauto. Qed.

Lemma hub_step_trades (w : world) (ev : hub_event) :
  recent_trades (hub_step w ev) = recent_trades w
  ∨ ∃ symbol f t, recent_trades (hub_step w ev)
                  = appendleft 30 (make_trade symbol f t) (recent_trades w).
Proof. hub_step_cases ev; world_simpl; eauto. Qed.

Lemma hub_step_whales (w : world) (ev : hub_event) :
  whale_alerts (hub_step w ev) = whale_alerts w
  ∨ ∃ symbol f t,
      whale_alerts (hub_step w ev)
      = appendleft 15
          (make_whale_alert (make_trade symbol f t) (trade_usd_size_of f))
          (whale_alerts w).
Proof. hub_step_cases ev; world_simpl; eauto. Qed.

Lemma hub_run_snoc (events : list hub_event) (ev : hub_event) :
  hub_run (events ++ [ev]) = hub_step (hub_run events) ev.
Proof. unfold hub_run. by rewrite foldl_app. Qed.

Lemma hub_run_within_capacity (events : list hub_event) :
  within_capacity (hub_run events).
Proof.
  induction events as [|ev events IH] using rev_ind.
  - unfold within_capacity. cbn. lia.
  - rewrite hub_run_snoc. destruct IH as (Hl & Ht & Hw).
    split_and!.
    + destruct (hub_step_liquidations (hub_run events) ev) as [->|[f ->]];
        [done|by apply appendleft_length].
    + destruct (hub_step_trades (hub_run events) ev) as [->|(s & f & t & ->)];
        [done|by apply appendleft_length].
    + destruct (hub_step_whales (hub_run events) ev) as [->|(s & f & t & ->)];
        [done|by apply appendleft_length].
Qed.

End HubSteps.

Lemma appendleft_inserted {A} (maxlen : nat) (x : A) (d : list A) :
  0 < maxlen → length d ≤ maxlen →
  inserted_at_head maxlen d (appendleft maxlen x d).
Proof.
  intros Hpos Hlen. exists x. destruct (decide (length d < maxlen)).
  - by apply appendleft_room.
  - apply appendleft_full; lia.
Qed.

(** C5: after every sequence of hub events the liquidation buffer holds at
    most 25 entries, the trade buffer at most 30 and the whale buffer at
    most 15; a further event leaves a buffer as it is or puts one new entry
    at its head, evicting the oldest entry, and only it, when the buffer was
    at capacity; a deque fed any sequence of items holds the newest
    [maxlen] of them, newest first. *)
Theorem bounded_buffers `{PyRuntime} (events : list hub_event)
    (ev : hub_event) :
  let w := hub_run events in
  let w' := hub_step w ev in
  (length (recent_liquidations w) ≤ 25
   ∧ length (recent_trades w) ≤ 30
   ∧ length (whale_alerts w) ≤ 15)
  ∧ (recent_liquidations w' = recent_liquidations w
     ∨ inserted_at_head 25 (recent_liquidations w) (recent_liquidations w'))
  ∧ (recent_trades w' = recent_trades w
     ∨ inserted_at_head 30 (recent_trades w) (recent_trades w'))
  ∧ (whale_alerts w' = whale_alerts w
     ∨ inserted_at_head 15 (whale_alerts w) (whale_alerts w'))
  ∧ (∀ (A : Type) (maxlen : nat) (entries : list A),
       foldl (λ d x, appendleft maxlen x d) [] entries
       = take maxlen (reverse entries)).
Proof.
  intros w w'. destruct (hub_run_within_capacity events) as (Hl & Ht & Hw).
  split_and!; try done.
  - destruct (hub_step_liquidations w ev) as [Heq|[f Heq]]; [by left|right].
    subst w'. rewrite Heq. apply appendleft_inserted; [lia|done].
  - destruct (hub_step_trades w ev) as [Heq|(s & f & t & Heq)]; [by left|right].
    subst w'. rewrite Heq. apply appendleft_inserted; [lia|done].
  - destruct (hub_step_whales w ev) as [Heq|(s & f & t & Heq)]; [by left|right].
    subst w'. rewrite Heq. apply appendleft_inserted; [lia|done].
  - intros A maxlen entries. apply appendleft_sequence.
Qed.

(** ** Snapshot on join *)

Section Joining.
Context `{PyRuntime}.


Lemma after_broadcast_clients (data : event) (w : world) (c : client) :
  c ∈ connected_clients (after_broadcast data w) → c ∈ connected_clients w.
Proof. world_simpl. rewrite list_elem_of_filter. tauto. Qed.

Lemma list_remove_subset (x c : client) (l l' : list client) :
  list_remove x l = Some l' → c ∈ l' → c ∈ l.
Proof.
  revert l'. induction l as [|y l IH]; intros l'; cbn; [done|].
  destruct (decide (y = x)) as [->|Hne].
  - intros [= ->] Hc. by apply elem_of_cons; right.
  - destruct (list_remove x l) as [l0|]; cbn; [|done].
    intros [= <-]. rewrite !elem_of_cons. intros [->|Hc]; [by left|right].
    by apply (IH l0).
Qed.



End Joining.



(** ** Whale tier and direction *)


(** From 500,000 on, "not at least 1,000,000" is "below 1,000,000". *)
Lemma below_mega (usd_size : float) :
  (500000 <=? usd_size)%float = true →
  (usd_size <? 1000000)%float = negb (1000000 <=? usd_size)%float.
Proof.
  intros Hhuge. destruct (PyFloat.leb_not_nan _ _ Hhuge) as [_ Hnum].
  rewrite (PyFloat.leb_negb_ltb 1000000 usd_size); [|done|done].
  by rewrite negb_involutive.
Qed.



(** ** Display symbols of trades *)

Lemma slice_to_length (n : nat) (s : string) : String.length (slice_to n s) ≤ n.
Proof.
  revert s. induction n as [|n IH]; intros [|c s]; cbn; try lia.
  specialize (IH s). lia.
Qed.

Lemma prefix_cons (a b : ascii) (s1 s2 : string) :
  String.prefix (String a s1) (String b s2)
  = Ascii.eqb a b && String.prefix s1 s2.
Proof.
  change (String.prefix (String a s1) (String b s2))
    with (if ascii_dec a b then String.prefix s1 s2 else false).
  destruct (ascii_dec a b) as [->|Hne].
  - by rewrite Ascii.eqb_refl.
  - apply Ascii.eqb_neq in Hne. by rewrite Hne.
Qed.

Lemma append_cons (a : ascii) (s s' : string) :
  String a s +:+ s' = String a (s +:+ s').
Proof. reflexivity. Qed.

Lemma append_nil (s : string) : "" +:+ s = s.
Proof. reflexivity. Qed.

Lemma prefix_nil (s : string) : String.prefix "" s = true.
Proof. by destruct s. Qed.

(** Ahead of a non-empty [base], the text starts with USDT if it does so
    when cut after USD. *)
Lemma prefix_usdt_cut (c : ascii) (base : string) :
  String.prefix "USDT" (String c base +:+ "USDT")
  = String.prefix "USDT" (String c base +:+ "USD").
Proof.
  destruct base as [|b1 [|b2 [|b3 base]]];
    rewrite ?append_cons, ?append_nil, ?prefix_cons, ?prefix_nil;
    try reflexivity.
  all: repeat (destruct (Ascii.eqb _ _) eqn:?; cbn [andb]; try reflexivity).
Qed.

(** Removing USDT from a text that ends in it and has no other occurrence
    removes the suffix. *)
Lemma replace_usdt_suffix (base : string) :
  occurs "USDT" (base +:+ "USD") = false →
  replace "USDT" "" (base +:+ "USDT") = base.
Proof.
  unfold replace. induction base as [|c base IH]; [done|].
  intros Hocc. rewrite append_cons in Hocc.
  change (occurs "USDT" (String c (base +:+ "USD")))
    with (String.prefix "USDT" (String c (base +:+ "USD"))
          || occurs "USDT" (base +:+ "USD")) in Hocc.
  apply orb_false_iff in Hocc as [Hhere Hrest].
  rewrite <- append_cons, <- prefix_usdt_cut in Hhere.
  rewrite append_cons in Hhere |- *.
  change (replace_from "USDT" "" 0 (String c (base +:+ "USDT")))
    with (if String.prefix "USDT" (String c (base +:+ "USDT"))
          then "" +:+ replace_from "USDT" "" (String.length "USDT" - 1)
                        (base +:+ "USDT")
          else String c (replace_from "USDT" "" 0 (base +:+ "USDT"))).
  rewrite Hhere. f_equal. by apply IH.
Qed.

Lemma appendleft_Forall {A} (P : A → Prop) (maxlen : nat) (x : A) (d : list A) :
  P x → Forall P d → Forall P (appendleft maxlen x d).
Proof.
  intros Hx Hd. unfold appendleft.
  destruct (maxlen <? length (x :: d))%nat; [|by constructor].
  rewrite removelast_firstn_len. apply Forall_take. by constructor.
Qed.

Section DisplaySymbols.
Context `{PyRuntime}.

Lemma make_trade_short (symbol : string) (f : trade_fields) (t : string) :
  short_symbol (make_trade symbol f t).
Proof. apply slice_to_length. Qed.

Lemma whale_trade_eq (t : trade) (usd_size : float) :
  whale_trade (make_whale_alert t usd_size) = t.
Proof. unfold make_whale_alert. by repeat case_match. Qed.

Lemma hub_run_short_symbols (events : list hub_event) :
  Forall short_symbol (recent_trades (hub_run events))
  ∧ Forall (λ a, short_symbol (whale_trade a)) (whale_alerts (hub_run events)).
Proof.
  induction events as [|ev events [IHt IHw]] using rev_ind.
  - cbn. split; constructor.
  - rewrite hub_run_snoc. split.
    + destruct (hub_step_trades (hub_run events) ev) as [->|(s & f & t & ->)];
        [done|].
      apply appendleft_Forall; [apply make_trade_short|done].
    + destruct (hub_step_whales (hub_run events) ev) as [->|(s & f & t & ->)];
        [done|].
      apply appendleft_Forall; [|done].
      rewrite whale_trade_eq. apply make_trade_short.
Qed.

End DisplaySymbols.

(** C10: every trade and every whale alert in the buffers, after any
    sequence of hub events, has a symbol of at most 4 characters: the symbol
    is the first 4 characters of the upper-cased stream symbol with USDT
    removed, which for a symbol ending in USDT and holding no other
    occurrence is the symbol without that suffix; the six configured
    symbols show as BTC, ETH, SOL, BNB, DOGE and WIF. *)
Theorem trade_symbol_truncated `{PyRuntime} (events : list hub_event)
    (symbol : string) (f : trade_fields) (t : string) (usd_size : float) :
  let trade := make_trade symbol f t in
  Forall (λ t, String.length (trade_symbol t) ≤ 4)
    (recent_trades (hub_run events))
  ∧ Forall (λ a, String.length (trade_symbol (whale_trade a)) ≤ 4)
      (whale_alerts (hub_run events))
  ∧ trade_symbol trade = slice_to 4 (replace "USDT" "" (upper symbol))
  ∧ trade_symbol (whale_trade (make_whale_alert trade usd_size))
    = trade_symbol trade
  ∧ String.length (trade_symbol trade) ≤ 4
  ∧ (∀ base, upper symbol = base +:+ "USDT" →
             occurs "USDT" (base +:+ "USD") = false →
             trade_symbol trade = slice_to 4 base)
  ∧ (λ s, trade_symbol (make_trade s f t)) <$> symbols
    = ["BTC"; "ETH"; "SOL"; "BNB"; "DOGE"; "WIF"].
Proof.
  intros trade.
  destruct (hub_run_short_symbols events) as [Ht Hw].
  split_and!; try done.
  - by rewrite whale_trade_eq.
  - apply make_trade_short.
  - intros base Hupper Hocc. subst trade. unfold make_trade.
    cbn [trade_symbol]. by rewrite Hupper, replace_usdt_suffix.
Qed.

Lemma trade_symbol_truncated_witness :
  trade_symbol
    (@make_trade example_runtime "dogeusdt"
       {| tf_price := 1; tf_quantity := 15000; tf_trade_time := 0;
          tf_is_buyer_maker := JBool true |} "12:00:00")
  = "DOGE".
Proof.
  pose proof (@trade_symbol_truncated example_runtime [] "dogeusdt"
    {| tf_price := 1; tf_quantity := 15000; tf_trade_time := 0;
       tf_is_buyer_maker := JBool true |} "12:00:00" 15000)
    as (_ & _ & _ & _ & _ & Hsuffix & _).
  exact (Hsuffix "DOGE" eq_refl eq_refl).
Defined.

(** ** Errors in the feed consumers *)

Create HintDb safe discriminated.

Lemma safe_Ok {A} (a : A) : raises_Exception (Ok a).
Proof. by intros e. Qed.

Lemma safe_of_option {A} (e : exn) (o : option A) :
  is_Exception e = true → raises_Exception (of_option e o).
Proof. intros He e'. destruct o; cbn; [done|]. by intros [= <-]. Qed.

Lemma safe_rbind {A B} (r : result A) (k : A → result B) :
  raises_Exception r → (∀ a, raises_Exception (k a)) →
  raises_Exception (rbind r k).
Proof.
  intros Hr Hk e. destruct r as [a|e']; cbn.
  - apply Hk.
  - intros [= <-]. by apply Hr.
Qed.

Lemma safe_json_loads (message : frame) : raises_Exception (json_loads message).
Proof. intros e. destruct message; cbn; [by intros [= <-]|done]. Qed.

Lemma safe_getitem (obj : json) (key : string) :
  raises_Exception (getitem obj key).
Proof.
  destruct obj; cbn; try (by intros e [= <-]). by apply safe_of_option.
Qed.

Lemma safe_str_replace (obj : json) (old new : string) :
  raises_Exception (str_replace obj old new).
Proof. destruct obj; cbn; by intros e [= <-]. Qed.

Lemma safe_py_float `{PyRuntime} (obj : json) : raises_Exception (py_float obj).
Proof.
  destruct obj; cbn; try (by intros e [= <-]); try apply safe_Ok;
    by apply safe_of_option.
Qed.

Lemma safe_py_int `{PyRuntime} (obj : json) : raises_Exception (py_int obj).
Proof.
  destruct obj; cbn; try (by intros e [= <-]); try apply safe_Ok;
    apply safe_of_option; by try case_match.
Qed.

#[local] Hint Resolve safe_Ok safe_of_option safe_json_loads safe_getitem
  safe_str_replace safe_py_float safe_py_int : safe.

Ltac safe_decode :=
  repeat (apply safe_rbind; [by eauto with safe|intros ?]);
  by eauto with safe.

Section ConsumerErrors.
Context `{PyRuntime}.

Lemma funding_decode_safe (message : frame) :
  raises_Exception (funding_decode message).
Proof. unfold funding_decode. safe_decode. Qed.

Lemma liquidation_decode_safe (msg : frame) :
  raises_Exception (liquidation_decode msg).
Proof. unfold liquidation_decode. safe_decode. Qed.

Lemma trade_decode_safe (message : frame) :
  raises_Exception (trade_decode message).
Proof. unfold trade_decode. safe_decode. Qed.

Lemma funding_on_message_safe (symbol : string) (message : frame) (w : world) :
  raises_Exception (funding_on_message symbol message w).2.
Proof.
  unfold funding_on_message. rewrite on_message_eq.
  destruct (funding_decode message) as [f|e] eqn:Hdecode.
  - by rewrite funding_apply_eq.
  - intros e' [= <-]. by apply (funding_decode_safe message).
Qed.

Lemma liquidation_on_message_safe (msg : frame) (w : world) :
  raises_Exception (liquidation_on_message msg w).2.
Proof.
  unfold liquidation_on_message. rewrite on_message_eq.
  destruct (liquidation_decode msg) as [f|e] eqn:Hdecode.
  - by rewrite liquidation_apply_eq.
  - intros e' [= <-]. by apply (liquidation_decode_safe msg).
Qed.

Lemma trade_on_message_safe (symbol : string) (message : frame) (w : world) :
  raises_Exception (trade_on_message symbol message w).2.
Proof.
  unfold trade_on_message. rewrite on_message_eq.
  destruct (trade_decode message) as [f|e] eqn:Hdecode.
  - rewrite trade_apply_eq. repeat case_match; cbn; try done.
    by intros e [= <-].
  - intros e' [= <-]. by apply (trade_decode_safe message).
Qed.

Lemma received_safe (on_message : frame → M unit) (o : await_outcome)
    (w : world) :
  (∀ message w, raises_Exception (on_message message w).2) →
  not_cancelled o → raises_Exception (received on_message o w).2.
Proof.
  intros Hbody Ho. destruct o as [message|e]; cbn; [apply Hbody|].
  by intros e' [= <-].
Qed.

Lemma connect_step_running (o : await_outcome) (w : world) :
  not_cancelled o → running (connect_step o w).1.1.
Proof. destruct o as [|e]; cbn; [done|]. by intros ->. Qed.

Lemma funding_stream_running (symbol : string) (p : phase)
    (o : await_outcome) (w : world) :
  not_cancelled o → running p →
  running (binance_funding_stream symbol p o w).1.1.
Proof.
  intros Ho Hp. destruct p; [by apply connect_step_running| |done].
  unfold binance_funding_stream.
  pose proof (received_safe (funding_on_message symbol) o w
                (funding_on_message_safe symbol) Ho) as Hsafe.
  destruct (received _ o w) as [w' [[]|e]]; cbn in *; [done|].
  rewrite (Hsafe e eq_refl). by destruct (is_JSONDecodeError e).
Qed.

Lemma liquidation_stream_running (p : phase) (o : await_outcome) (w : world) :
  not_cancelled o → running p →
  running (binance_liquidation_stream p o w).1.1.
Proof.
  intros Ho Hp. destruct p; [by apply connect_step_running| |done].
  unfold binance_liquidation_stream.
  pose proof (received_safe liquidation_on_message o w
                liquidation_on_message_safe Ho) as Hsafe.
  destruct (received _ o w) as [w' [[]|e]]; cbn in *; [done|].
  by rewrite (Hsafe e eq_refl).
Qed.

Lemma trade_stream_running (symbol : string) (p : phase)
    (o : await_outcome) (w : world) :
  not_cancelled o → running p →
  running (binance_trade_stream symbol p o w).1.1.
Proof.
  intros Ho Hp. destruct p; [by apply connect_step_running| |done].
  unfold binance_trade_stream.
  pose proof (received_safe (trade_on_message symbol) o w
                (trade_on_message_safe symbol) Ho) as Hsafe.
  destruct (received _ o w) as [w' [[]|e]]; cbn in *; [done|].
  by rewrite (Hsafe e eq_refl).
Qed.

(** A consumer whose steps keep it running keeps running over any sequence
    of outcomes without cancellation. *)
Lemma run_stream_running (step : stream_step) (outcomes : list await_outcome)
    (p : phase) (w : world) :
  (∀ p o w, not_cancelled o → running p → running (step p o w).1.1) →
  Forall not_cancelled outcomes → running p →
  running (run_stream step outcomes p w).1.1.
Proof.
  intros Hstep Hall. revert p w.
  induction Hall as [|o outcomes Ho _ IH]; intros p w Hp; [done|].
  cbn [run_stream]. specialize (Hstep p o w Ho Hp).
  destruct (step p o w) as [[p' ios] w']. specialize (IH p' w' Hstep).
  by destruct (run_stream step outcomes p' w') as [[p'' ios'] w''].
Qed.

End ConsumerErrors.

(** C2: a frame that is not JSON leaves the shared state as it is and
    publishes nothing in all three consumers; the funding consumer stays in
    its receive loop on the same connection, whereas the liquidation and the
    trade consumer log, close the connection and go back to connecting. *)
Theorem parse_failure_handling `{PyRuntime} (symbol : string) (w : world) :
  binance_funding_stream symbol Receiving (returned not_json) w
  = (Receiving, [], w)
  ∧ binance_liquidation_stream Receiving (returned not_json) w
    = (Connecting, [io_log; io_close], w)
  ∧ binance_trade_stream symbol Receiving (returned not_json) w
    = (Connecting, [io_log; io_close], w).
Proof. by split_and!. Qed.

(** A trade frame without a price raises [KeyError]; the consumer
    reconnects without sleeping. *)
Lemma processing_error_skips_backoff :
  ¬ reconnects_with_backoff (@binance_trade_stream example_runtime "btcusdt")
      (returned (json_text (JObj []))) initial_world.
Proof.
  intros (ios & w' & Hstep & _ & Hsleep).
  cbn in Hstep. injection Hstep as <- _.
  apply elem_of_cons in Hsleep as [?|Hsleep]; [done|].
  apply list_elem_of_singleton in Hsleep. done.
Qed.

(** C3 (amended): an error of class [Exception] raised while receiving or
    processing a message, other than a parse failure, makes each consumer
    log, close the connection and connect again at once, without sleeping;
    the 5 second sleep follows a failed attempt to connect only; over any
    sequence of such outcomes no consumer ever stops. *)
Theorem reconnect_without_backoff `{PyRuntime} (symbol : string)
    (o : await_outcome) (w : world) (e : exn)
    (outcomes : list await_outcome) :
  is_Exception e = true →
  is_JSONDecodeError e = false →
  Forall not_cancelled outcomes →
  ((received (funding_on_message symbol) o w).2 = Raise e →
     binance_funding_stream symbol Receiving o w
     = (Connecting, [io_log; io_close],
        (received (funding_on_message symbol) o w).1))
  ∧ ((received liquidation_on_message o w).2 = Raise e →
     binance_liquidation_stream Receiving o w
     = (Connecting, [io_log; io_close],
        (received liquidation_on_message o w).1))
  ∧ ((received (trade_on_message symbol) o w).2 = Raise e →
     binance_trade_stream symbol Receiving o w
     = (Connecting, [io_log; io_close],
        (received (trade_on_message symbol) o w).1))
  ∧ binance_funding_stream symbol Connecting (raised e) w
    = (Connecting, [io_log; io_sleep 5], w)
  ∧ binance_liquidation_stream Connecting (raised e) w
    = (Connecting, [io_log; io_sleep 5], w)
  ∧ binance_trade_stream symbol Connecting (raised e) w
    = (Connecting, [io_log; io_sleep 5], w)
  ∧ running (run_stream (binance_funding_stream symbol)
               outcomes Connecting w).1.1
  ∧ running (run_stream binance_liquidation_stream outcomes Connecting w).1.1
  ∧ running (run_stream (binance_trade_stream symbol)
               outcomes Connecting w).1.1.
Proof.
  intros He Hparse Hall. split_and!.
  - unfold binance_funding_stream.
    destruct (received _ o w) as [w' r]. cbn. intros ->. by rewrite Hparse, He.
  - unfold binance_liquidation_stream.
    destruct (received _ o w) as [w' r]. cbn. intros ->. by rewrite He.
  - unfold binance_trade_stream.
    destruct (received _ o w) as [w' r]. cbn. intros ->. by rewrite He.
  - cbn. by rewrite He.
  - cbn. by rewrite He.
  - cbn. by rewrite He.
  - apply run_stream_running; [apply funding_stream_running|done|done].
  - apply run_stream_running; [apply liquidation_stream_running|done|done].
  - apply run_stream_running; [apply trade_stream_running|done|done].
Qed.

Lemma reconnect_without_backoff_witness :
  @binance_trade_stream example_runtime "btcusdt" Receiving
    (returned (json_text (JObj []))) initial_world
  = (Connecting, [io_log; io_close], initial_world)
  ∧ running (run_stream (@binance_trade_stream example_runtime "btcusdt")
               [raised OSError; returned not_json;
                returned (json_text (JObj []));
                returned (example_trade "50000" "3" false);
                raised ConnectionClosed]
               Connecting initial_world).1.1.
Proof.
  assert (Hall : Forall not_cancelled
            [raised OSError; returned not_json;
             returned (json_text (JObj []));
             returned (example_trade "50000" "3" false);
             raised ConnectionClosed])
    by (repeat constructor).
  pose proof (@reconnect_without_backoff example_runtime "btcusdt"
    (returned (json_text (JObj []))) initial_world KeyError _
    eq_refl eq_refl Hall) as (_ & _ & Hbreak & _ & _ & _ & _ & _ & Hrun).
  split; [exact (Hbreak eq_refl)|exact Hrun].
Defined.

(** * Further properties of the hub *)

(** ** Broadcasts, one subscriber at a time *)

Lemma filter_absent (c : client) (l : list client) :
  c ∉ l → filter (λ x, x = c) l = [].
Proof.
  induction l as [|y l IH]; [done|].
  rewrite not_elem_of_cons. intros [Hne Hl].
  rewrite filter_cons_False by congruence. by apply IH.
Qed.

Lemma filter_present_once (c : client) (l : list client) :
  NoDup l → c ∈ l → filter (λ x, x = c) l = [c].
Proof.
  induction 1 as [|y l Hy Hnd IH]; [by intros ?%elem_of_nil|].
  intros [->|Hc]%elem_of_cons.
  - by rewrite filter_cons_True, filter_absent.
  - rewrite filter_cons_False by (intros ->; done). by apply IH.
Qed.

(** The texts of one broadcast that go to [c]: one per listing of [c]. *)
Lemma received_by_fmap (c : client) (data : event) (l : list client) :
  (filter (λ ce : client * event, ce.1 = c) ((λ x, (x, data)) <$> l)).*2
  = replicate (length (filter (λ x, x = c) l)) data.
Proof.
  induction l as [|y l IH]; [done|]. cbn [fmap list_fmap].
  destruct (decide (y = c)) as [->|Hne].
  - rewrite !filter_cons_True by done. cbn. by rewrite <- IH.
  - rewrite !filter_cons_False by done. apply IH.
Qed.

Lemma received_by_after_broadcast (data : event) (w : world) (c : client) :
  received_by c (after_broadcast data w)
  = received_by c w
    ++ replicate
         (length (filter (λ x, x = c)
                    (filter (λ x, x ∉ broken w) (connected_clients w))))
         data.
Proof.
  unfold received_by. world_simpl.
  by rewrite filter_app, fmap_app, received_by_fmap.
Qed.

(** X1: a publish during which no other task is scheduled, over a
    registry that lists every subscriber once, returns normally and hands
    its text exactly once, after everything sent before, to each registered
    subscriber whose transport works, and nothing to anybody else. *)
Theorem broadcast_delivers_once (p : payload) (w : world) (c : client) :
  NoDup (connected_clients w) →
  (publish_alone p w).2 = finished (Ok tt)
  ∧ received_by c (publish_alone p w).1
    = received_by c w
      ++ (if decide (c ∈ connected_clients w ∧ c ∉ broken w)
          then [serialize p w] else []).
Proof.
  intros Hnodup. rewrite publish_alone_eq. cbn [fst snd]. split; [done|].
  rewrite received_by_after_broadcast. f_equal.
  destruct (decide (c ∈ connected_clients w ∧ c ∉ broken w)) as [Hc|Hc].
  - rewrite filter_present_once; [done|by apply NoDup_filter|].
    apply list_elem_of_filter. tauto.
  - rewrite filter_absent; [done|]. rewrite list_elem_of_filter. tauto.
Qed.

Lemma broadcast_delivers_once_witness :
  let w := set_broken {[2]} (set_connected_clients [1; 2; 3] initial_world) in
  let p := snapshot_of (trade_update []) in
  (publish_alone p w).2 = finished (Ok tt)
  ∧ received_by 3 (publish_alone p w).1 = received_by 3 w ++ [trade_update []].
Proof.
  intros w p.
  assert (Hnodup : NoDup (connected_clients w)).
  { cbn. repeat (apply NoDup_cons; split); try apply NoDup_nil_2;
      rewrite ?not_elem_of_cons; repeat split;
      try apply not_elem_of_nil; lia. }
  exact (broadcast_delivers_once p w 3 Hnodup).
Defined.

(** X2: after a publish during which no other task is scheduled no
    registered subscriber has a broken transport and the survivors keep
    their order; a second such publish removes nobody and reaches exactly
    the survivors; a registry without broken transports is left as it
    is. *)
Theorem second_broadcast_removes_nobody (first second : payload) (w : world) :
  let w1 := (publish_alone first w).1 in
  let w2 := (publish_alone second w1).1 in
  Forall (λ c, c ∉ broken w1) (connected_clients w1)
  ∧ connected_clients w1 `sublist_of` connected_clients w
  ∧ (publish_alone second w1).2 = finished (Ok tt)
  ∧ connected_clients w2 = connected_clients w1
  ∧ sent w2
    = sent w1 ++ ((λ c, (c, serialize second w1)) <$> connected_clients w1)
  ∧ (Forall (λ c, c ∉ broken w) (connected_clients w) →
     connected_clients w1 = connected_clients w).
Proof.
  intros w1 w2. subst w1 w2. rewrite !publish_alone_eq. cbn [fst snd].
  assert (Hlive : Forall (λ c, c ∉ broken w)
                    (filter (λ c, c ∉ broken w) (connected_clients w))).
  { apply Forall_forall. intros c Hc. by apply list_elem_of_filter in Hc as [? _]. }
  world_simpl. split_and!.
  - done.
  - apply sublist_filter.
  - done.
  - by apply filter_all.
  - by rewrite (filter_all _ _ Hlive).
  - apply filter_all.
Qed.

(** ** Joining and leaving *)

Lemma websocket_endpoint_accept_eq (websocket : client) (w : world) :
  websocket_endpoint_accept websocket w
  = let w1 := set_connected_clients (connected_clients w ++ [websocket]) w in
    if bool_decide (websocket ∈ broken w)
    then (w1, Raise WebSocketDisconnect)
    else (set_sent
            (sent w ++ [(websocket,
                         initial_data (funding_data w) (recent_liquidations w)
                           (recent_trades w) (whale_alerts w))]) w1,
          Ok tt).
Proof.
  unfold websocket_endpoint_accept, bind, modify, get, send_text.
  world_simpl. by destruct (bool_decide (websocket ∈ broken w)).
Qed.

(** X3: when the initial send fails, the handler ends with the exception
    of the send and leaves the subscriber registered without a snapshot; a
    publish that follows, with no other task scheduled during it, returns
    normally, removes the subscriber and sends it nothing. *)
Theorem failed_join_is_cleaned_up (websocket : client) (p : payload)
    (w : world) :
  websocket ∈ broken w →
  let w1 := (websocket_endpoint_accept websocket w).1 in
  let w2 := (publish_alone p w1).1 in
  (websocket_endpoint_accept websocket w).2 = Raise WebSocketDisconnect
  ∧ connected_clients w1 = connected_clients w ++ [websocket]
  ∧ sent w1 = sent w
  ∧ (publish_alone p w1).2 = finished (Ok tt)
  ∧ (websocket ∉ connected_clients w2)
  ∧ received_by websocket w2 = received_by websocket w.
Proof.
  intros Hbroken w1 w2. subst w1 w2.
  rewrite websocket_endpoint_accept_eq. cbv zeta.
  rewrite bool_decide_eq_true_2 by done. cbn [fst snd].
  rewrite publish_alone_eq. cbn [fst snd].
  split_and!; try done.
  - world_simpl. rewrite list_elem_of_filter. tauto.
  - rewrite received_by_after_broadcast, filter_absent.
    + cbn. by rewrite app_nil_r.
    + world_simpl. rewrite list_elem_of_filter. tauto.
Qed.

Lemma failed_join_is_cleaned_up_witness :
  let w := set_broken {[7]} initial_world in
  let w1 := (websocket_endpoint_accept 7 w).1 in
  let p := snapshot_of (trade_update []) in
  connected_clients w1 = [7]
  ∧ (publish_alone p w1).2 = finished (Ok tt)
  ∧ 7 ∉ connected_clients (publish_alone p w1).1.
Proof.
  intros w w1 p.
  assert (Hbroken : 7 ∈ broken w) by (subst w; cbn; set_solver).
  destruct (failed_join_is_cleaned_up 7 p w Hbroken)
    as (_ & Hjoined & _ & Hreturns & Hgone & _).
  split_and!; [exact Hjoined|exact Hreturns|exact Hgone].
Defined.

(** X4: a subscriber that was not registered and leaves again puts the
    client list back as it was: after the join and the disconnect only the
    record of the snapshot sent to it tells the state from the one before,
    and the handler ends normally. *)
Theorem join_leave_round_trip (websocket : client) (w : world) :
  websocket ∉ connected_clients w →
  websocket ∉ broken w →
  let w1 := (websocket_endpoint_accept websocket w).1 in
  websocket_endpoint_receive websocket (Raise WebSocketDisconnect) w1
  = (set_sent
       (sent w ++ [(websocket,
                    initial_data (funding_data w) (recent_liquidations w)
                      (recent_trades w) (whale_alerts w))]) w,
     Ok false).
Proof.
  intros Hnew Hlive w1. subst w1.
  rewrite websocket_endpoint_accept_eq. cbv zeta.
  rewrite bool_decide_eq_false_2 by done. cbn [fst].
  unfold websocket_endpoint_receive, bind, remove_client, ret. world_simpl.
  rewrite list_remove_middle by done. rewrite app_nil_r.
  destruct w; by cbn.
Qed.

Lemma join_leave_round_trip_witness :
  connected_clients
    (websocket_endpoint_receive 7 (Raise WebSocketDisconnect)
       (websocket_endpoint_accept 7
          (set_connected_clients [1; 2] initial_world)).1).1
  = [1; 2].
Proof.
  rewrite (join_leave_round_trip 7 (set_connected_clients [1; 2] initial_world)).
  - reflexivity.
  - cbn. rewrite !not_elem_of_cons. repeat split; try lia.
    apply not_elem_of_nil.
  - cbn. apply not_elem_of_empty.
Defined.

Lemma list_remove_keeps (x c : client) (l l' : list client) :
  list_remove x l = Some l' → c ≠ x → c ∈ l → c ∈ l'.
Proof.
  revert l'. induction l as [|y l IH]; intros l'; cbn; [done|].
  destruct (decide (y = x)) as [->|Hne].
  - intros [= ->] Hc [->|Hin]%elem_of_cons; done.
  - destruct (list_remove x l) as [l0|]; cbn; [|done].
    intros [= <-] Hc. rewrite !elem_of_cons. intros [->|Hin]; [by left|right].
    by apply (IH l0).
Qed.

Section Staying.
Context `{PyRuntime}.

(** A transport that is broken stays broken. *)
Lemma hub_step_broken (w : world) (ev : hub_event) (c : client) :
  c ∈ broken w → c ∈ broken (hub_step w ev).
Proof.
  hub_step_cases ev; world_simpl; try done. intros Hc. set_solver.
Qed.

Lemma hub_steps_broken (w : world) (events : list hub_event) (c : client) :
  c ∈ broken w → c ∈ broken (foldl hub_step w events).
Proof.
  revert w. induction events as [|ev events IH]; intros w Hc; [done|].
  cbn. by apply IH, hub_step_broken.
Qed.

Lemma hub_step_keeps_live (w : world) (ev : hub_event) (c : client) :
  c ∈ connected_clients w → c ∉ broken w → ev ≠ client_disconnects c →
  c ∈ connected_clients (hub_step w ev).
Proof.
  intros Hc Hlive Hev. revert Hev.
  hub_step_cases ev; world_simpl; intros Hev;
    rewrite ?list_elem_of_filter; try done.
  - apply elem_of_app. by left.
  - apply elem_of_app. by left.
  - apply (list_remove_keeps websocket c _ _ Hremove); [|done].
    intros ->. done.
Qed.

End Staying.

(** X5: the hub never drops a healthy subscriber: over any sequence of hub
    events without its own disconnect, a registered subscriber whose
    transport still works at the end is still registered. *)
Theorem live_client_stays_registered `{PyRuntime} (w : world)
    (events : list hub_event) (websocket : client) :
  websocket ∈ connected_clients w →
  websocket ∉ broken (foldl hub_step w events) →
  client_disconnects websocket ∉ events →
  websocket ∈ connected_clients (foldl hub_step w events).
Proof.
  revert w. induction events as [|ev events IH]; intros w Hc Hlive Hstay;
    [done|].
  apply not_elem_of_cons in Hstay as [Hev Hstay]. cbn [foldl] in *.
  apply IH; [|done|done].
  apply hub_step_keeps_live; [done| |done].
  intros Hbroken. apply Hlive, hub_steps_broken. by apply hub_step_broken.
Qed.

Lemma live_client_stays_registered_witness :
  1 ∈ connected_clients
        (foldl (@hub_step example_runtime)
           (set_connected_clients [1] initial_world)
           [trade_frame "btcusdt" (example_trade "50000" "3" false);
            transport_breaks 2; client_disconnects 2]).
Proof.
  apply (@live_client_stays_registered example_runtime).
  - cbn. apply elem_of_cons. by left.
  - assert (Hb : broken (foldl (@hub_step example_runtime)
             (set_connected_clients [1] initial_world)
             [trade_frame "btcusdt" (example_trade "50000" "3" false);
              transport_breaks 2; client_disconnects 2]) = {[2]})
      by (by vm_compute).
    rewrite Hb. rewrite elem_of_singleton. lia.
  - intros Hin.
    repeat (apply elem_of_cons in Hin as [Hin|Hin]; [by inversion Hin|]).
    by apply elem_of_nil in Hin.
Defined.

(** ** The funding table *)

(** Runs a hub step symbolically and keeps what the decoders returned. *)
Ltac hub_step_decoded ev :=
  let Hdecode := fresh "Hdecode" in
  destruct ev as [symbol message|message|symbol message
                 |websocket|websocket|websocket];
  cbn [hub_step];
  [ unfold funding_on_message; rewrite on_message_eq;
    destruct (funding_decode message) as [f|e] eqn:Hdecode;
    [rewrite funding_apply_eq|]
  | unfold liquidation_on_message; rewrite on_message_eq;
    destruct (liquidation_decode message) as [f|e] eqn:Hdecode;
    [rewrite liquidation_apply_eq;
     destruct (5000 <=? liquidation_usd_size f)%float eqn:Hkeep|]
  | unfold trade_on_message; rewrite on_message_eq;
    destruct (trade_decode message) as [f|e] eqn:Hdecode;
    [rewrite trade_apply_eq;
     destruct (15000 <=? trade_usd_size_of f)%float eqn:Hkeep;
     [destruct (strftime_est (tf_trade_time f)) as [t|] eqn:Htime;
      [unfold after_trade;
       destruct (100000 <=? trade_usd_size_of f)%float eqn:Hwhale|]|]|]
  | rewrite websocket_endpoint_accept_eq; cbv zeta;
    destruct (bool_decide (websocket ∈ broken _)) eqn:Hbroken
  | unfold websocket_endpoint_receive, bind, remove_client;
    destruct (list_remove websocket (connected_clients _)) as [l|] eqn:Hremove
  | idtac ].

Section FundingTable.
Context `{PyRuntime}.

(** Only a funding frame that decodes writes the table, at its own symbol. *)
Lemma hub_step_funding (w : world) (ev : hub_event) :
  funding_data (hub_step w ev) = funding_data w
  ∨ ∃ symbol message f,
      ev = funding_frame symbol message
      ∧ funding_decode message = Ok f
      ∧ funding_data (hub_step w ev)
        = <[symbol := Some (make_funding f)]> (funding_data w).
Proof. hub_step_decoded ev; world_simpl; eauto 10. Qed.

Lemma started_funding_symbol (symbol : string) :
  funding_task symbol ∈ startup_event → symbol ∈ symbols.
Proof.
  unfold startup_event. rewrite !elem_of_app, list_elem_of_singleton.
  rewrite !list_elem_of_fmap. intros [(s & [= ->] & Hs)|[?|(s & ? & _)]]; done.
Qed.

Lemma initial_funding_unset (symbol : string) :
  symbol ∈ symbols → funding_data initial_world !! symbol = Some None.
Proof.
  unfold symbols. rewrite !elem_of_cons, elem_of_nil.
  intros [->|[->|[->|[->|[->|[->|[]]]]]]]; by vm_compute.
Qed.

Lemma make_funding_consistent (f : funding_fields) :
  funding_snapshot_consistent (make_funding f).
Proof. by split. Qed.

End FundingTable.

(** X6: while the frames come from the tasks that [startup_event] creates,
    the funding table keeps exactly the configured symbols as its keys, and
    a symbol's entry stays [None] as long as no funding frame has arrived
    for it. *)
Theorem funding_keys_fixed `{PyRuntime} (events : list hub_event) :
  Forall from_started_task events →
  dom (funding_data (hub_run events)) = list_to_set symbols
  ∧ ∀ symbol, symbol ∈ symbols →
      (∀ message, funding_frame symbol message ∉ events) →
      funding_data (hub_run events) !! symbol = Some None.
Proof.
  induction events as [|ev events IH] using rev_ind; intros Hstarted.
  - split; [|intros symbol Hs _; by apply initial_funding_unset].
    unfold hub_run. cbn [foldl initial_world funding_data].
    by rewrite dom_list_to_map_L.
  - apply Forall_app in Hstarted as [Hevents Hev].
    apply Forall_inv in Hev.
    destruct (IH Hevents) as [Hdom Hunset]. rewrite hub_run_snoc.
    destruct (hub_step_funding (hub_run events) ev)
      as [->|(s & m & f & -> & _ & ->)].
    + split; [done|]. intros symbol Hs Hnone. apply Hunset; [done|].
      intros message Hin. apply (Hnone message), elem_of_app. by left.
    + split.
      * rewrite dom_insert_L, Hdom.
        apply started_funding_symbol in Hev.
        apply subseteq_union_1_L, singleton_subseteq_l.
        by apply elem_of_list_to_set.
      * intros symbol Hs Hnone.
        rewrite lookup_insert_ne.
        -- apply Hunset; [done|].
           intros message Hin. apply (Hnone message), elem_of_app. by left.
        -- intros ->. apply (Hnone m), elem_of_app. right.
           by apply list_elem_of_singleton.
Qed.

Lemma funding_keys_fixed_witness :
  dom (funding_data
         (@hub_run example_runtime
            [funding_frame "btcusdt" (example_funding "0.5");
             trade_frame "ethusdt" (example_trade "50000" "3" false)]))
  = list_to_set symbols.
Proof.
  apply (@funding_keys_fixed example_runtime).
  repeat constructor; cbn; unfold startup_event, symbols; cbn;
    repeat (try apply list_elem_of_here; apply list_elem_of_further).
Defined.

(** X7: every snapshot in the funding table, after any sequence of hub
    events, has its yearly rate equal to its rate times 3 times 365 and the
    severity class of that yearly rate. *)
Theorem funding_snapshots_consistent `{PyRuntime} (events : list hub_event)
    (symbol : string) (snap : funding_snapshot) :
  funding_data (hub_run events) !! symbol = Some (Some snap) →
  yearly_rate snap = (funding_rate snap * 3 * 365)%float
  ∧ style_class snap = get_funding_style_class (yearly_rate snap).
Proof.
  revert symbol snap.
  induction events as [|ev events IH] using rev_ind; intros symbol snap.
  - unfold hub_run. cbn [foldl]. intros Hlookup.
    destruct (decide (symbol ∈ symbols)) as [Hs|Hs].
    + by rewrite initial_funding_unset in Hlookup.
    + exfalso. apply Hs.
      assert (Hdom : symbol ∈ dom (funding_data initial_world))
        by (by apply elem_of_dom).
      cbn [initial_world funding_data] in Hdom.
      rewrite dom_list_to_map_L in Hdom. by apply elem_of_list_to_set in Hdom.
  - rewrite hub_run_snoc.
    destruct (hub_step_funding (hub_run events) ev)
      as [->|(s & m & f & -> & _ & ->)]; [apply IH|].
    destruct (decide (s = symbol)) as [->|Hne].
    + rewrite lookup_insert_eq. intros [= <-]. apply make_funding_consistent.
    + rewrite lookup_insert_ne by done. apply IH.
Qed.

Lemma funding_snapshots_consistent_witness :
  ∃ snap,
    funding_data
      (@hub_run example_runtime
         [funding_frame "btcusdt" (example_funding "0.5")]) !! "btcusdt"
    = Some (Some snap)
    ∧ yearly_rate snap = 54750%float
    ∧ style_class snap = "funding-extreme".
Proof.
  eexists. split; [by vm_compute|].
  assert (Hlookup : funding_data
      (@hub_run example_runtime
         [funding_frame "btcusdt" (example_funding "0.5")]) !! "btcusdt"
    = Some (Some {| symbol_display := "BTC"; funding_rate := 50;
                    yearly_rate := 54750;
                    style_class := "funding-extreme" |}))
    by (by vm_compute).
  destruct (@funding_snapshots_consistent example_runtime _ _ _ Hlookup)
    as [Hyearly Hclass].
  split; [exact Hyearly|exact Hclass].
Defined.

(** X8: the funding table keeps no history: of two funding frames for one
    symbol processed in a row, the second, when it decodes, alone decides
    the table; the symbol maps to its snapshot and every other symbol keeps
    the entry it had. *)
Theorem funding_last_write_wins `{PyRuntime} (symbol : string)
    (first second : frame) (f : funding_fields) (w : world) :
  funding_decode second = Ok f →
  let w2 := hub_step (hub_step w (funding_frame symbol first))
              (funding_frame symbol second) in
  funding_data w2 = funding_data (hub_step w (funding_frame symbol second))
  ∧ funding_data w2 !! symbol = Some (Some (make_funding f))
  ∧ ∀ other, other ≠ symbol → funding_data w2 !! other = funding_data w !! other.
Proof.
  intros Hsecond w2. subst w2. cbn [hub_step].
  unfold funding_on_message. rewrite !on_message_eq, Hsecond.
  rewrite !funding_apply_eq.
  destruct (funding_decode first) as [f1|e]; cbn [fst];
    rewrite ?funding_apply_eq; world_simpl.
  - rewrite insert_insert_eq. split_and!; [done|apply lookup_insert_eq|].
    intros other Hne. by rewrite lookup_insert_ne.
  - split_and!; [done|apply lookup_insert_eq|].
    intros other Hne. by rewrite lookup_insert_ne.
Qed.

Lemma funding_last_write_wins_witness :
  funding_data
    (@hub_run example_runtime
       [funding_frame "btcusdt" (example_funding "1");
        funding_frame "btcusdt" (example_funding "0.5")])
  = funding_data
      (@hub_run example_runtime
         [funding_frame "btcusdt" (example_funding "0.5")]).
Proof.
  exact (proj1 (@funding_last_write_wins example_runtime "btcusdt"
    (example_funding "1") (example_funding "0.5") _ initial_world eq_refl)).
Defined.

(** ** What the history buffers hold *)

Section BufferEntries.
Context `{PyRuntime}.

Lemma hub_step_liquidations_kept (w : world) (ev : hub_event) :
  recent_liquidations (hub_step w ev) = recent_liquidations w
  ∨ ∃ f, (5000 <=? liquidation_usd_size f)%float = true
         ∧ recent_liquidations (hub_step w ev)
           = appendleft 25 (make_liquidation f) (recent_liquidations w).
Proof. hub_step_decoded ev; world_simpl; eauto. Qed.

Lemma hub_step_trades_kept (w : world) (ev : hub_event) :
  recent_trades (hub_step w ev) = recent_trades w
  ∨ ∃ symbol f t,
      (15000 <=? trade_usd_size_of f)%float = true
      ∧ recent_trades (hub_step w ev)
        = appendleft 30 (make_trade symbol f t) (recent_trades w).
Proof. hub_step_decoded ev; world_simpl; eauto 10. Qed.

Lemma hub_step_whales_kept (w : world) (ev : hub_event) :
  whale_alerts (hub_step w ev) = whale_alerts w
  ∨ ∃ symbol f t,
      (100000 <=? trade_usd_size_of f)%float = true
      ∧ whale_alerts (hub_step w ev)
        = appendleft 15
            (make_whale_alert (make_trade symbol f t) (trade_usd_size_of f))
            (whale_alerts w).
Proof. hub_step_decoded ev; world_simpl; eauto 10. Qed.

(** What holds of every entry made at or above the thresholds holds of
    every entry in the buffers. *)
Lemma liquidations_Forall (P : liquidation → Prop) (events : list hub_event) :
  (∀ f, (5000 <=? liquidation_usd_size f)%float = true →
        P (make_liquidation f)) →
  Forall P (recent_liquidations (hub_run events)).
Proof.
  intros HP. induction events as [|ev events IH] using rev_ind;
    [by constructor|].
  rewrite hub_run_snoc.
  destruct (hub_step_liquidations_kept (hub_run events) ev)
    as [->|(f & Hkeep & ->)]; [done|].
  apply appendleft_Forall; [by apply HP|done].
Qed.

Lemma trades_Forall (P : trade → Prop) (events : list hub_event) :
  (∀ symbol f t, (15000 <=? trade_usd_size_of f)%float = true →
                 P (make_trade symbol f t)) →
  Forall P (recent_trades (hub_run events)).
Proof.
  intros HP. induction events as [|ev events IH] using rev_ind;
    [by constructor|].
  rewrite hub_run_snoc.
  destruct (hub_step_trades_kept (hub_run events) ev)
    as [->|(symbol & f & t & Hkeep & ->)]; [done|].
  apply appendleft_Forall; [by apply HP|done].
Qed.

Lemma whales_Forall (P : whale_alert → Prop) (events : list hub_event) :
  (∀ symbol f t, (100000 <=? trade_usd_size_of f)%float = true →
     P (make_whale_alert (make_trade symbol f t) (trade_usd_size_of f))) →
  Forall P (whale_alerts (hub_run events)).
Proof.
  intros HP. induction events as [|ev events IH] using rev_ind;
    [by constructor|].
  rewrite hub_run_snoc.
  destruct (hub_step_whales_kept (hub_run events) ev)
    as [->|(symbol & f & t & Hkeep & ->)]; [done|].
  apply appendleft_Forall; [by apply HP|done].
Qed.

Lemma eq_str_true (obj : json) (s : string) :
  eq_str obj s = true ↔ obj = JStr s.
Proof.
  destruct obj; cbn; try (split; [discriminate|by intros [=]]).
  rewrite String.eqb_eq. split; [by intros ->|by intros [= ->]].
Qed.

Lemma make_liquidation_well_formed (f : liquidation_fields) :
  liquidation_well_formed (make_liquidation f).
Proof.
  split; [apply slice_to_length|]. unfold make_liquidation. cbn.
  destruct (eq_str (lf_side f) "SELL") eqn:Hside.
  - left. by apply eq_str_true in Hside.
  - right. split; [|done]. intros Heq%eq_str_true. congruence.
Qed.

Lemma make_trade_well_formed (symbol : string) (f : trade_fields) (t : string) :
  trade_well_formed (make_trade symbol f t).
Proof.
  unfold trade_well_formed, make_trade, trade_type_of. cbn.
  destruct (truthy (tf_is_buyer_maker f)); cbn; [by right|by left].
Qed.

Lemma make_whale_alert_well_formed (t : trade) (usd_size : float) :
  trade_well_formed t →
  (100000 <=? usd_size)%float = true →
  whale_alert_well_formed (make_whale_alert t usd_size).
Proof.
  intros Ht Hwhale. unfold whale_alert_well_formed, make_whale_alert.
  destruct (1000000 <=? usd_size)%float eqn:Hmega.
  { cbn. unfold getWhaleEmoji. rewrite Hmega. split_and!; try done. by left. }
  destruct (500000 <=? usd_size)%float eqn:Hhuge.
  { cbn. unfold getWhaleEmoji. rewrite Hmega, Hhuge.
    split_and!; try done. right. left.
    by rewrite (below_mega _ Hhuge), Hmega. }
  cbn. unfold getWhaleEmoji. rewrite Hmega, Hhuge.
  split_and!; try done. right. right. split_and!; try done.
  destruct (PyFloat.leb_not_nan _ _ Hwhale) as [_ Hnum].
  pose proof (PyFloat.leb_negb_ltb 500000 usd_size eq_refl Hnum) as Hneg.
  rewrite Hhuge in Hneg. by destruct (usd_size <? 500000)%float.
Qed.

Lemma format_usd_suffix (amount : float) :
  (1000 <=? amount)%float = true → has_magnitude_suffix (format_usd amount).
Proof.
  intros Hk. unfold format_usd, has_magnitude_suffix.
  destruct (1000000 <=? amount)%float; [|rewrite Hk]; eauto.
Qed.

End BufferEntries.

(** X9: every liquidation in the buffer, after any sequence of hub events,
    has a symbol of at most 4 characters and a label and colour that follow
    its side: LONG LIQ and liquidation-long when the side is the string
    SELL, SHORT LIQ and liquidation-short for any other side. *)
Theorem liquidations_well_formed `{PyRuntime} (events : list hub_event) :
  Forall liquidation_well_formed (recent_liquidations (hub_run events)).
Proof.
  apply liquidations_Forall. intros f _. apply make_liquidation_well_formed.
Qed.

(** X10: every trade in the buffer is a BUY coloured trade-buy or a SELL
    coloured trade-sell, and every whale alert in the buffer is such a
    trade, has a value of at least 100,000 and a tier, class and client
    emoji that follow the value: MEGA from 1,000,000 on, HUGE from 500,000
    up to 1,000,000, BIG below 500,000. *)
Theorem trades_and_whale_alerts_well_formed `{PyRuntime}
    (events : list hub_event) :
  Forall trade_well_formed (recent_trades (hub_run events))
  ∧ Forall whale_alert_well_formed (whale_alerts (hub_run events)).
Proof.
  split.
  - apply trades_Forall. intros symbol f t _. apply make_trade_well_formed.
  - apply whales_Forall. intros symbol f t Hwhale.
    apply make_whale_alert_well_formed; [apply make_trade_well_formed|done].
Qed.

(** X11: no amount in the buffers is shown without a magnitude: the
    formatted size of every liquidation, trade and whale alert is a dollar
    sign, a number and K or M, since every entry is worth at least 1,000. *)
Theorem buffered_amounts_have_suffix `{PyRuntime} (events : list hub_event) :
  Forall (λ l, has_magnitude_suffix (liq_usd_size l))
    (recent_liquidations (hub_run events))
  ∧ Forall (λ t, has_magnitude_suffix (trade_usd_size t))
      (recent_trades (hub_run events))
  ∧ Forall (λ a, has_magnitude_suffix (trade_usd_size (whale_trade a)))
      (whale_alerts (hub_run events)).
Proof.
  split_and!.
  - apply liquidations_Forall. intros f Hkeep. cbn.
    apply format_usd_suffix. by apply (PyFloat.leb_trans 1000 5000).
  - apply trades_Forall. intros symbol f t Hkeep. cbn.
    apply format_usd_suffix. by apply (PyFloat.leb_trans 1000 15000).
  - apply whales_Forall. intros symbol f t Hwhale. rewrite whale_trade_eq. cbn.
    apply format_usd_suffix. by apply (PyFloat.leb_trans 1000 100000).
Qed.

(** ** What is published *)

(** X12: a hub step publishes at most two events, each carrying the whole
    container it is about as the step leaves it; a step that publishes
    nothing leaves the four containers as they were. *)
Theorem updates_carry_current_state `{PyRuntime} (w : world) (ev : hub_event) :
  let w' := hub_step w ev in
  ∃ new, broadcasts w' = broadcasts w ++ new
         ∧ length new ≤ 2
         ∧ Forall (carries_current w') new
         ∧ (new = [] →
            funding_data w' = funding_data w
            ∧ recent_liquidations w' = recent_liquidations w
            ∧ recent_trades w' = recent_trades w
            ∧ whale_alerts w' = whale_alerts w).
Proof.
  cbv zeta. hub_step_decoded ev; world_simpl;
    try (exists []; rewrite app_nil_r; split_and!;
         [done|cbn; lia|constructor|done]);
    try (eexists [_]; split_and!;
         [reflexivity|cbn; lia|by repeat constructor|discriminate]).
  eexists [_; _]. rewrite <- app_assoc. split_and!;
    [reflexivity|cbn; lia|by repeat constructor|discriminate].
Qed.

(** ** The reconnect loops over whole runs *)

Lemma tally_app {A} (f : A → bool) (l1 l2 : list A) :
  tally f (l1 ++ l2) = tally f l1 + tally f l2.
Proof. induction l1 as [|a l1 IH]; cbn; [done|]. rewrite IH. lia. Qed.

Lemma run_stream_cons (step : stream_step) (o : await_outcome)
    (outcomes : list await_outcome) (p : phase) (w : world) :
  run_stream step (o :: outcomes) p w
  = let r := step p o w in
    let r' := run_stream step outcomes r.1.1 r.2 in
    (r'.1.1, r.1.2 ++ r'.1.2, r'.2).
Proof.
  cbn [run_stream]. destruct (step p o w) as [[p1 ios1] w1]. cbn.
  by destruct (run_stream step outcomes p1 w1) as [[p2 ios2] w2].
Qed.

Lemma run_stream_balanced (step : stream_step)
    (outcomes : list await_outcome) (p : phase) (w : world) :
  step_balanced step →
  tally is_open (run_stream step outcomes p w).1.2 + connected p
  = tally is_close (run_stream step outcomes p w).1.2
    + connected (run_stream step outcomes p w).1.1.
Proof.
  intros Hstep. revert p w.
  induction outcomes as [|o outcomes IH]; intros p w; [done|].
  rewrite run_stream_cons. cbn [fst snd]. rewrite !tally_app.
  specialize (Hstep p o w).
  specialize (IH (step p o w).1.1 (step p o w).2). lia.
Qed.

Lemma run_stream_sleeps (step : stream_step)
    (outcomes : list await_outcome) (p : phase) (w : world) :
  step_sleeps_on_raise step →
  Forall sleeps_five (run_stream step outcomes p w).1.2
  ∧ tally is_sleep (run_stream step outcomes p w).1.2
    ≤ tally is_raised outcomes.
Proof.
  intros Hstep. revert p w.
  induction outcomes as [|o outcomes IH]; intros p w;
    [split; [constructor|done]|].
  rewrite run_stream_cons. cbn [fst snd tally]. rewrite tally_app.
  destruct (Hstep p o w) as [Hfive Hcount].
  destruct (IH (step p o w).1.1 (step p o w).2) as [Hfive' Hcount'].
  split; [by apply Forall_app|lia].
Qed.

Lemma run_stream_acts_as (step : stream_step) (event_of : frame → hub_event)
    (hub : world → hub_event → world)
    (outcomes : list await_outcome) (p : phase) (w : world) :
  step_acts_as step event_of hub →
  ∃ frames, frames `sublist_of` omap returned_frame outcomes
            ∧ (run_stream step outcomes p w).2
              = foldl hub w (event_of <$> frames).
Proof.
  intros Hstep. revert p w.
  induction outcomes as [|o outcomes IH]; intros p w; [by exists []|].
  rewrite run_stream_cons. cbn [fst snd].
  destruct (IH (step p o w).1.1 (step p o w).2) as (frames & Hsub & ->).
  destruct (Hstep p o w) as [->|(message & -> & ->)].
  - exists frames. split; [|done].
    destruct o as [message|e]; cbn; [by apply sublist_cons|done].
  - exists (message :: frames). split; [|done]. cbn. by apply sublist_skip.
Qed.

Section StreamRuns.
Context `{PyRuntime}.

(** Solves a property of one step of a stream by running the step. *)
Ltac stream_step_cases p o w body :=
  destruct p as [| |stopped]; cbn;
  [ destruct o as [message|e]; cbn; [|destruct (is_Exception e); cbn]
  | destruct (received body o w) as [w' [[]|e]] eqn:Hreceived; cbn;
    [|try (destruct (is_JSONDecodeError e); cbn);
      destruct (is_Exception e); cbn]
  | idtac ].

Lemma funding_stream_balanced (symbol : string) :
  step_balanced (binance_funding_stream symbol).
Proof.
  intros p o w.
  stream_step_cases p o w (funding_on_message symbol); lia.
Qed.

Lemma liquidation_stream_balanced : step_balanced binance_liquidation_stream.
Proof.
  intros p o w. stream_step_cases p o w liquidation_on_message; lia.
Qed.

Lemma trade_stream_balanced (symbol : string) :
  step_balanced (binance_trade_stream symbol).
Proof.
  intros p o w. stream_step_cases p o w (trade_on_message symbol); lia.
Qed.

Lemma funding_stream_sleeps (symbol : string) :
  step_sleeps_on_raise (binance_funding_stream symbol).
Proof.
  intros p o w.
  stream_step_cases p o w (funding_on_message symbol);
    (split; [by repeat constructor|try destruct o; cbn; lia]).
Qed.

Lemma liquidation_stream_sleeps :
  step_sleeps_on_raise binance_liquidation_stream.
Proof.
  intros p o w.
  stream_step_cases p o w liquidation_on_message;
    (split; [by repeat constructor|try destruct o; cbn; lia]).
Qed.

Lemma trade_stream_sleeps (symbol : string) :
  step_sleeps_on_raise (binance_trade_stream symbol).
Proof.
  intros p o w.
  stream_step_cases p o w (trade_on_message symbol);
    (split; [by repeat constructor|try destruct o; cbn; lia]).
Qed.

Lemma received_acts_as (body : frame → M unit) (o : await_outcome)
    (w : world) :
  (received body o w).1 = w
  ∨ ∃ message, o = returned message ∧ (received body o w).1 = (body message w).1.
Proof. destruct o as [message|e]; cbn; eauto. Qed.

Lemma funding_stream_acts (symbol : string) :
  step_acts_as (binance_funding_stream symbol) (funding_frame symbol) hub_step.
Proof.
  intros p o w. pose proof (received_acts_as (funding_on_message symbol) o w).
  stream_step_cases p o w (funding_on_message symbol); eauto.
Qed.

Lemma liquidation_stream_acts :
  step_acts_as binance_liquidation_stream liquidation_frame hub_step.
Proof.
  intros p o w. pose proof (received_acts_as liquidation_on_message o w).
  stream_step_cases p o w liquidation_on_message; eauto.
Qed.

Lemma trade_stream_acts (symbol : string) :
  step_acts_as (binance_trade_stream symbol) (trade_frame symbol) hub_step.
Proof.
  intros p o w. pose proof (received_acts_as (trade_on_message symbol) o w).
  stream_step_cases p o w (trade_on_message symbol); eauto.
Qed.

End StreamRuns.

(** X14: no consumer leaks a connection: in every run from the start, over
    any await outcomes (cancellation included), each consumer has closed as
    many connections as it has opened, less the one it holds while it is
    receiving. *)
Theorem connections_are_closed `{PyRuntime} (symbol : string)
    (outcomes : list await_outcome) (w : world) :
  let funding := run_stream (binance_funding_stream symbol)
                   outcomes Connecting w in
  let liquidation := run_stream binance_liquidation_stream
                       outcomes Connecting w in
  let trade := run_stream (binance_trade_stream symbol)
                 outcomes Connecting w in
  tally is_open funding.1.2
  = tally is_close funding.1.2 + connected funding.1.1
  ∧ tally is_open liquidation.1.2
    = tally is_close liquidation.1.2 + connected liquidation.1.1
  ∧ tally is_open trade.1.2
    = tally is_close trade.1.2 + connected trade.1.1.
Proof.
  cbv zeta. split_and!.
  - pose proof (run_stream_balanced _ outcomes Connecting w
                  (funding_stream_balanced symbol)) as Hrun.
    cbn [connected] in Hrun. lia.
  - pose proof (run_stream_balanced _ outcomes Connecting w
                  liquidation_stream_balanced) as Hrun.
    cbn [connected] in Hrun. lia.
  - pose proof (run_stream_balanced _ outcomes Connecting w
                  (trade_stream_balanced symbol)) as Hrun.
    cbn [connected] in Hrun. lia.
Qed.

(** X15: a consumer sleeps only after an await that raised, and then for 5
    seconds: in every run, from any phase, the sleeps are no more than the
    outcomes that raised, so a run in which every connect and every [recv]
    returns has no sleep at all, however many frames are rejected. *)
Theorem sleeps_only_after_a_raise `{PyRuntime} (symbol : string)
    (outcomes : list await_outcome) (p : phase) (w : world) :
  let funding := run_stream (binance_funding_stream symbol) outcomes p w in
  let liquidation := run_stream binance_liquidation_stream outcomes p w in
  let trade := run_stream (binance_trade_stream symbol) outcomes p w in
  (Forall sleeps_five funding.1.2
   ∧ tally is_sleep funding.1.2 ≤ tally is_raised outcomes)
  ∧ (Forall sleeps_five liquidation.1.2
     ∧ tally is_sleep liquidation.1.2 ≤ tally is_raised outcomes)
  ∧ (Forall sleeps_five trade.1.2
     ∧ tally is_sleep trade.1.2 ≤ tally is_raised outcomes)
  ∧ (tally is_raised outcomes = 0 →
     tally is_sleep funding.1.2 = 0
     ∧ tally is_sleep liquidation.1.2 = 0
     ∧ tally is_sleep trade.1.2 = 0).
Proof.
  cbv zeta.
  pose proof (run_stream_sleeps _ outcomes p w (funding_stream_sleeps symbol))
    as [Hf1 Hf2].
  pose proof (run_stream_sleeps _ outcomes p w liquidation_stream_sleeps)
    as [Hl1 Hl2].
  pose proof (run_stream_sleeps _ outcomes p w (trade_stream_sleeps symbol))
    as [Ht1 Ht2].
  split_and!; try done. intros Hnone. lia.
Qed.

(** X16: a consumer changes the shared state only by processing frames it
    received: the state a consumer leaves after any run that starts in a
    state of the hub is again a state of the hub, reached by the hub events
    of some of the frames its [recv] returned, in their order; so the
    buffers are within their capacities after it. *)
Theorem stream_effects_are_hub_events `{PyRuntime} (symbol : string)
    (outcomes : list await_outcome) (p : phase) (events : list hub_event) :
  let w := hub_run events in
  (∃ frames, frames `sublist_of` omap returned_frame outcomes
     ∧ (run_stream (binance_funding_stream symbol) outcomes p w).2
       = hub_run (events ++ (funding_frame symbol <$> frames)))
  ∧ (∃ frames, frames `sublist_of` omap returned_frame outcomes
       ∧ (run_stream binance_liquidation_stream outcomes p w).2
         = hub_run (events ++ (liquidation_frame <$> frames)))
  ∧ (∃ frames, frames `sublist_of` omap returned_frame outcomes
       ∧ (run_stream (binance_trade_stream symbol) outcomes p w).2
         = hub_run (events ++ (trade_frame symbol <$> frames)))
  ∧ within_capacity
      (run_stream (binance_funding_stream symbol) outcomes p w).2
  ∧ within_capacity (run_stream binance_liquidation_stream outcomes p w).2
  ∧ within_capacity
      (run_stream (binance_trade_stream symbol) outcomes p w).2.
Proof.
  cbv zeta.
  destruct (run_stream_acts_as _ _ _ outcomes p (hub_run events)
              (funding_stream_acts symbol)) as (ff & Hff & Hf).
  destruct (run_stream_acts_as _ _ _ outcomes p (hub_run events)
              liquidation_stream_acts) as (lf & Hlf & Hl).
  destruct (run_stream_acts_as _ _ _ outcomes p (hub_run events)
              (trade_stream_acts symbol)) as (tf & Htf & Ht).
  unfold hub_run in *. rewrite <- foldl_app in Hf, Hl, Ht.
  split_and!; eauto.
  - rewrite Hf. apply hub_run_within_capacity.
  - rewrite Hl. apply hub_run_within_capacity.
  - rewrite Ht. apply hub_run_within_capacity.
Qed.

Lemma sleeps_only_after_a_raise_witness :
  tally is_sleep
    (run_stream (@binance_liquidation_stream example_runtime)
       [returned not_json; returned not_json; returned not_json;
        returned (json_text (JObj [])); returned not_json]
       Receiving initial_world).1.2 = 0.
Proof.
  destruct (@sleeps_only_after_a_raise example_runtime "btcusdt"
    [returned not_json; returned not_json; returned not_json;
     returned (json_text (JObj [])); returned not_json]
    Receiving initial_world) as (_ & _ & _ & Hnone).
  exact (proj1 (proj2 (Hnone eq_refl))).
Defined.

(** ** The dashboard script *)

(** A rate above 50 is above 30. *)
Lemma above_extreme_is_high (r : float) :
  (50 <? r)%float = true → (30 <? r)%float = true.
Proof.
  intros H50. destruct (PyFloat.ltb_not_nan _ _ H50) as [_ Hr].
  pose proof (PyFloat.leb_negb_ltb r 30 Hr eq_refl) as H30.
  pose proof (PyFloat.leb_negb_ltb r 50 Hr eq_refl) as Hle.
  rewrite H50 in Hle. cbn in Hle.
  destruct (30 <? r)%float; [done|]. cbn in H30.
  by rewrite (PyFloat.leb_trans r 30 50 H30 eq_refl) in Hle.
Qed.

(** X17: the status the dashboard script shows for a yearly rate agrees
    with the severity class the server sends for it: HIGH for the classes
    extreme and high, POS for positive, NEG for negative and NORM for
    normal. *)
Theorem status_label_matches_class (r : float) :
  let class := get_funding_style_class r in
  getStatusEmoji r
  = if String.eqb class "funding-extreme" || String.eqb class "funding-high"
    then status_high
    else if String.eqb class "funding-positive" then status_pos
    else if String.eqb class "funding-negative" then status_neg
    else status_norm.
Proof.
  cbv zeta. unfold getStatusEmoji, get_funding_style_class.
  destruct (50 <? r)%float eqn:H50.
  { by rewrite (above_extreme_is_high r H50). }
  destruct (30 <? r)%float; [done|].
  destruct (5 <? r)%float; [done|].
  by destruct (r <? -10)%float.
Qed.

(** ** What a viewer sees *)

Lemma starts_with_snapshot_app (texts more : list event) :
  texts ≠ [] → starts_with_snapshot texts →
  starts_with_snapshot (texts ++ more).
Proof. by destruct texts as [|[] texts]. Qed.

Lemma snapshot_first_after_broadcast (data : event) (w : world) (c : client) :
  snapshot_first w c → snapshot_first (after_broadcast data w) c.
Proof.
  intros [Hsome Hfirst]. unfold snapshot_first.
  rewrite received_by_after_broadcast.
  change (broken (after_broadcast data w)) with (broken w).
  split.
  - intros Hc%after_broadcast_clients Hlive Hnil.
    apply app_eq_nil in Hnil as [Hnil _]. by apply Hsome.
  - destruct (decide (c ∈ filter (λ x, x ∉ broken w) (connected_clients w)))
      as [Hc|Hc].
    + apply list_elem_of_filter in Hc as [Hlive Hc].
      apply starts_with_snapshot_app; [by apply Hsome|done].
    + rewrite filter_absent by done. cbn. by rewrite app_nil_r.
Qed.

Section Viewers.
Context `{PyRuntime}.

Lemma hub_step_snapshot_first (w : world) (ev : hub_event) :
  (∀ c, snapshot_first w c) → ∀ c, snapshot_first (hub_step w ev) c.
Proof.
  intros Hfirst c.
  hub_step_decoded ev; cbn [fst]; try exact (Hfirst c);
    try (repeat apply snapshot_first_after_broadcast; exact (Hfirst c)).
  - (* join, initial send fails *)
    destruct (Hfirst c) as [Hsome Hstart]. split; [|exact Hstart].
    world_simpl. unfold received_by in *. world_simpl.
    intros [Hc|Hc%list_elem_of_singleton]%elem_of_app Hlive.
    + by apply Hsome.
    + subst. by apply bool_decide_eq_true_1 in Hbroken.
  - (* join *)
    destruct (Hfirst c) as [Hsome Hstart]. unfold snapshot_first.
    unfold received_by in *. world_simpl.
    rewrite filter_app, fmap_app.
    destruct (decide (websocket = c)) as [->|Hne].
    + rewrite filter_cons_True, filter_nil by done. cbn. split.
      * intros _ _ Hnil. by apply app_eq_nil in Hnil as [_ ?].
      * destruct ((filter _ (sent w)).*2) as [|e texts] eqn:Hold; [done|].
        by apply (starts_with_snapshot_app (e :: texts)).
    + rewrite filter_cons_False, filter_nil, app_nil_r by done.
      split; [|exact Hstart].
      intros [Hc|Hc%list_elem_of_singleton]%elem_of_app Hlive; [|done].
      by apply Hsome.
  - (* leave *)
    destruct (Hfirst c) as [Hsome Hstart]. split; [|exact Hstart].
    world_simpl. unfold received_by in *. world_simpl. intros Hc Hlive.
    apply Hsome; [|done]. by apply (list_remove_subset websocket c _ l).
  - (* transport breaks *)
    destruct (Hfirst c) as [Hsome Hstart]. split; [|exact Hstart].
    world_simpl. unfold received_by in *. world_simpl. intros Hc Hlive.
    apply (Hsome Hc). intros Hb. apply Hlive, elem_of_union. by right.
Qed.

End Viewers.

(** X18: each panel of the page shows the payload of the latest text that
    could be parsed and carries the panel's container (the snapshot carries
    all four), with nothing left of earlier texts; a text that cannot be
    parsed changes no panel, and a panel no text has filled is empty. *)
Theorem panels_show_latest_payload (texts : list event) :
  funding_rows (dashboard_of texts)
  = from_option (omap (λ data, data)) ∅ (latest funding_of texts)
  ∧ liquidation_items (dashboard_of texts)
    = default [] (latest liquidations_of texts)
  ∧ trade_items (dashboard_of texts) = default [] (latest trades_of texts)
  ∧ whale_items (dashboard_of texts) = default [] (latest whales_of texts).
Proof.
  induction texts as [|data texts IH] using rev_ind; [done|].
  destruct IH as (Hfunding & Hliquidations & Htrades & Hwhales).
  unfold dashboard_of, latest in *.
  rewrite foldl_app, filter_app. cbn [foldl]. unfold onmessage.
  destruct (event_parses data) eqn:Hparses.
  - rewrite filter_cons_True, filter_nil by done.
    rewrite !omap_app.
    destruct data; cbn; rewrite ?app_nil_r, ?last_snoc; by cbn.
  - rewrite filter_cons_False, filter_nil, app_nil_r by congruence. done.
Qed.

(** X19: no viewer is sent an update before its snapshot: after any
    sequence of hub events the texts sent to a client, if any, begin with
    the initial snapshot, and a registered client whose transport works has
    been sent it. *)
Theorem snapshot_comes_first `{PyRuntime} (events : list hub_event)
    (websocket : client) :
  starts_with_snapshot (received_by websocket (hub_run events))
  ∧ (websocket ∈ connected_clients (hub_run events) →
     websocket ∉ broken (hub_run events) →
     received_by websocket (hub_run events) ≠ []).
Proof.
  assert (Hfirst : snapshot_first (hub_run events) websocket).
  { revert websocket.
    induction events as [|ev events IH] using rev_ind; intros websocket.
    - split; [by intros Hc%elem_of_nil|done].
    - rewrite hub_run_snoc. by apply hub_step_snapshot_first. }
  destruct Hfirst as [Hsome Hstart]. by split.
Qed.

(** ** Messages that fail *)

(** X20: processing a message is all or nothing: when the body of any of
    the three consumers raises on a message, for whatever reason, the
    shared state is exactly as before the message and nothing has been
    published or sent. *)
Theorem failed_message_changes_nothing `{PyRuntime} (symbol : string)
    (message : frame) (w : world) (e : exn) :
  ((funding_on_message symbol message w).2 = Raise e →
   (funding_on_message symbol message w).1 = w)
  ∧ ((liquidation_on_message message w).2 = Raise e →
     (liquidation_on_message message w).1 = w)
  ∧ ((trade_on_message symbol message w).2 = Raise e →
     (trade_on_message symbol message w).1 = w).
Proof.
  unfold funding_on_message, liquidation_on_message, trade_on_message.
  rewrite !on_message_eq. split_and!.
  - destruct (funding_decode message); [|done].
    by rewrite funding_apply_eq.
  - destruct (liquidation_decode message); [|done].
    by rewrite liquidation_apply_eq.
  - destruct (trade_decode message) as [f|]; [|done].
    rewrite trade_apply_eq. by repeat case_match.
Qed.

Lemma failed_message_changes_nothing_witness :
  (@trade_on_message example_runtime "btcusdt"
     (json_text (JObj [("p", JStr "50000")])) initial_world).1
  = initial_world.
Proof.
  destruct (@failed_message_changes_nothing example_runtime "btcusdt"
    (json_text (JObj [("p", JStr "50000")])) initial_world KeyError)
    as (_ & _ & Htrade).
  exact (Htrade eq_refl).
Defined.

(** ** Display symbols of funding and liquidation frames *)

(** X21: for a frame whose symbol ends in USDT and holds no other
    occurrence of it, the funding snapshot shows the symbol without the
    suffix in upper case, and the liquidation shows the first 4 characters
    of the symbol without the suffix, in the case the frame has them. *)
Theorem frame_symbols_lose_suffix `{PyRuntime} (base : string)
    (mark_price force_order order_data : json)
    (ff : funding_fields) (lf : liquidation_fields) :
  occurs "USDT" (base +:+ "USD") = false →
  getitem mark_price "s" = Ok (JStr (base +:+ "USDT")) →
  getitem force_order "o" = Ok order_data →
  getitem order_data "s" = Ok (JStr (base +:+ "USDT")) →
  funding_decode (json_text mark_price) = Ok ff →
  liquidation_decode (json_text force_order) = Ok lf →
  ff_symbol_display ff = upper base
  ∧ liq_symbol (make_liquidation lf) = slice_to 4 base.
Proof.
  intros Hocc Hs Ho Hos.
  unfold funding_decode, liquidation_decode. cbn [json_loads rbind].
  rewrite Hs, Ho. cbn [rbind]. rewrite Hos. cbn [rbind str_replace].
  rewrite (replace_usdt_suffix base Hocc).
  intros Hff Hlf. split.
  - unfold rbind in Hff. repeat case_match; try discriminate.
    by injection Hff as <-.
  - unfold rbind in Hlf. repeat case_match; try discriminate.
    by injection Hlf as <-.
Qed.

Lemma frame_symbols_lose_suffix_witness :
  let order_data :=
    JObj [("s", JStr "DOGEUSDT"); ("S", JStr "BUY"); ("T", JInt 0);
          ("z", JStr "1"); ("p", JStr "5000")] in
  let mark_price := JObj [("s", JStr "DOGEUSDT"); ("r", JStr "0.5")] in
  let force_order := JObj [("o", order_data)] in
  ∃ ff lf,
    @funding_decode example_runtime (json_text mark_price) = Ok ff
    ∧ @liquidation_decode example_runtime (json_text force_order) = Ok lf
    ∧ ff_symbol_display ff = "DOGE"
    ∧ liq_symbol (@make_liquidation example_runtime lf) = "DOGE".
Proof.
  intros order_data mark_price force_order.
  eexists _, _. split; [reflexivity|]. split; [reflexivity|].
  exact (@frame_symbols_lose_suffix example_runtime "DOGE"
           mark_price force_order order_data
           _ _ eq_refl eq_refl eq_refl eq_refl eq_refl eq_refl).
Defined.
